(** * G-Core CDN access-log decoder: a shallow embedding and its properties

    The development follows [src/cdn_log_parser.py] and [src/cmcd_parser.py],
    and, for what happens to a decoded record, [emit_parsed_log] of
    [src/otel_exporter.py], [list_log_objects] of [src/s3_source.py] and
    [_normalize_prefix], [_iter_keys] and [run] of [src/collector.py].

    Data model.  A Python [str] is a [string]; one [ascii] stands for one code
    point below 256, so the whitespace class and the case mapping below are
    those of Python restricted to that range.  A Python [dict] is an
    association list with unique keys kept in insertion order, which is the
    order Python iterates in.  The result [None] of the decoder is [None] of
    [option].

    The only library code the two modules call that is not a [str] method is
    [urllib.parse.parse_qs].  Its splitting logic is transcribed from the
    standard library; the percent-decoder it applies to names and values that
    contain a percent sign is a parameter of the development, so every theorem
    holds whatever that decoder returns. *)

From Stdlib Require Import String Ascii List Bool Arith ZArith Lia.
Import ListNotations.
Open Scope string_scope.
Open Scope list_scope.

(** ** Python [str] methods used by the source *)

Module PyStr.

(** The double quote and the backslash. *)
Definition dquote : ascii := ascii_of_nat 34.
Definition backslash : ascii := ascii_of_nat 92.

(** [c.isspace()] for a code point below 256: TAB..CR, FS..US, SPACE, NEL and
    NBSP. *)
Definition isspace (c : ascii) : bool :=
  let n := nat_of_ascii c in
  ((9 <=? n) && (n <=? 13) || (28 <=? n) && (n <=? 32)
   || (n =? 133) || (n =? 160))%nat.

(** [not s] *)
Definition is_empty (s : string) : bool :=
  match s with
  | EmptyString => true
  | String _ _ => false
  end.

(** [a or b] on strings *)
Definition or_else (a b : string) : string :=
  if is_empty a then b else a.

(** [c in chars] *)
Fixpoint mem_char (c : ascii) (chars : string) : bool :=
  match chars with
  | EmptyString => false
  | String d r => Ascii.eqb c d || mem_char c r
  end.

(** Removal of the leading characters satisfying [p]. *)
Fixpoint lstrip_by (p : ascii -> bool) (s : string) : string :=
  match s with
  | EmptyString => EmptyString
  | String c r => if p c then lstrip_by p r else s
  end.

(** Removal of the trailing characters satisfying [p]. *)
Fixpoint rstrip_by (p : ascii -> bool) (s : string) : string :=
  match s with
  | EmptyString => EmptyString
  | String c r =>
      let r' := rstrip_by p r in
      if p c && is_empty r' then EmptyString else String c r'
  end.

(** [s.strip()] *)
Definition strip (s : string) : string :=
  rstrip_by isspace (lstrip_by isspace s).

(** [s.strip(chars)] *)
Definition strip_chars (chars s : string) : string :=
  rstrip_by (fun c => mem_char c chars) (lstrip_by (fun c => mem_char c chars) s).

(** [s.startswith(p)] *)
Definition startswith (p s : string) : bool := String.prefix p s.

(** [c in s] for a one-character string [c] *)
Definition contains (c : ascii) (s : string) : bool := mem_char c s.

(** [s[n:]] *)
Fixpoint drop (n : nat) (s : string) : string :=
  match n, s with
  | O, _ => s
  | S _, EmptyString => EmptyString
  | S n', String _ r => drop n' r
  end.

(** [s[:n]] *)
Fixpoint take (n : nat) (s : string) : string :=
  match n, s with
  | O, _ => EmptyString
  | S _, EmptyString => EmptyString
  | S n', String c r => String c (take n' r)
  end.

(** [s[a:b]] for non-negative [a] and [b]; out-of-range bounds are clamped. *)
Definition slice (a b : nat) (s : string) : string := take (b - a) (drop a s).

(** [s[-1]] of a non-empty string *)
Fixpoint last_char (s : string) : option ascii :=
  match s with
  | EmptyString => None
  | String c EmptyString => Some c
  | String _ r => last_char r
  end.

(** [s.partition(sep)] for a one-character [sep]: the text before the first
    [sep], whether [sep] was found, and the text after it. *)
Fixpoint partition (sep : ascii) (s : string) : string * bool * string :=
  match s with
  | EmptyString => (EmptyString, false, EmptyString)
  | String c r =>
      if Ascii.eqb c sep then (EmptyString, true, r)
      else let '(a, found, b) := partition sep r in (String c a, found, b)
  end.

(** [s.split(sep)] for a one-character [sep]; never the empty list. *)
Fixpoint split (sep : ascii) (s : string) : list string :=
  match s with
  | EmptyString => [EmptyString]
  | String c r =>
      if Ascii.eqb c sep then EmptyString :: split sep r
      else match split sep r with
           | [] => [String c EmptyString]
           | w :: ws => String c w :: ws
           end
  end.

(** The maximal prefix without whitespace and what follows it. *)
Fixpoint span_word (s : string) : string * string :=
  match s with
  | EmptyString => (EmptyString, EmptyString)
  | String c r =>
      if isspace c then (EmptyString, s)
      else let '(w, rest) := span_word r in (String c w, rest)
  end.

(** [s.split(None, maxsplit)]: words separated by runs of whitespace; after
    [maxsplit] words the remainder, without its leading whitespace, is the
    last element. *)
Fixpoint split_ws (maxsplit : nat) (s : string) : list string :=
  let r := lstrip_by isspace s in
  match maxsplit with
  | O => if is_empty r then [] else [r]
  | S m =>
      if is_empty r then []
      else let '(w, rest) := span_word r in w :: split_ws m rest
  end.

(** [c.lower()] for a code point below 256 *)
Definition lower_char (c : ascii) : ascii :=
  let n := nat_of_ascii c in
  if ((65 <=? n) && (n <=? 90)
      || (192 <=? n) && (n <=? 222) && negb (n =? 215))%nat
  then ascii_of_nat (n + 32) else c.

(** [s.lower()] *)
Fixpoint lower (s : string) : string :=
  match s with
  | EmptyString => EmptyString
  | String c r => String (lower_char c) (lower r)
  end.

(** [s.replace(a, b)] for one-character [a] and [b] *)
Fixpoint replace_char (a b : ascii) (s : string) : string :=
  match s with
  | EmptyString => EmptyString
  | String c r => String (if Ascii.eqb c a then b else c) (replace_char a b r)
  end.

(** [s.replace(bq, q)] with [bq] a backslash followed by a double quote and
    [q] a double quote: every such pair, scanning left to right, becomes a
    double quote. *)
Fixpoint replace_bs_quote (s : string) : string :=
  match s with
  | EmptyString => EmptyString
  | String c r =>
      match r with
      | String d r' =>
          if Ascii.eqb c backslash && Ascii.eqb d dquote
          then String dquote (replace_bs_quote r')
          else String c (replace_bs_quote r)
      | EmptyString => String c EmptyString
      end
  end.

End PyStr.

(** ** Python [dict] as an insertion-ordered association list *)

Module PyDict.

Definition dict (V : Type) : Type := list (string * V).

(** [d.get(k)] *)
Fixpoint get {V : Type} (k : string) (d : dict V) : option V :=
  match d with
  | [] => None
  | (k', v) :: r => if String.eqb k k' then Some v else get k r
  end.

(** [d[k] = v]: an existing key keeps its position, a new key goes last. *)
Fixpoint set {V : Type} (k : string) (v : V) (d : dict V) : dict V :=
  match d with
  | [] => [(k, v)]
  | (k', v') :: r =>
      if String.eqb k k' then (k', v) :: r else (k', v') :: set k v r
  end.

(** [list(d)]: the keys in iteration order *)
Definition keys {V : Type} (d : dict V) : list string := map fst d.

(** [list(d.values())] *)
Definition values {V : Type} (d : dict V) : list V := map snd d.

End PyDict.

Import PyStr.

(** ** [cdn_log_parser._parse_quoted_fields] *)

(** The function as it is written: two nested [while] loops over the index
    [i].  A loop is given [fuel] iterations and [None] stands for running out
    of them or for an [IndexError] raised by [line[i]]. *)
Module Loop.

(** [line[i]]; [None] when [i] is out of range. *)
Definition index (line : string) (i : nat) : option ascii := String.get i line.

(** The inner loop: while [i < n] and [line[i]] is not a double quote, skip
    one more character when [line[i]] is a backslash, then [i += 1].  The
    result is the final [i]. *)
Fixpoint inner (fuel : nat) (line : string) (n i : nat) : option nat :=
  match fuel with
  | O => None
  | S fuel' =>
      if (i <? n)%nat then
        match index line i with
        | None => None
        | Some c =>
            if Ascii.eqb c dquote then Some i
            else
              let i := if Ascii.eqb c backslash then i + 1 else i in
              inner fuel' line n (i + 1)
        end
      else Some i
  end.

(** [while i < n: ...] with the accumulated [fields]. *)
Fixpoint outer (fuel : nat) (line : string) (n i : nat) (fields : list string)
  : option (list string) :=
  match fuel with
  | O => None
  | S fuel' =>
      if (i <? n)%nat then
        match index line i with
        | None => None
        | Some c =>
            if Ascii.eqb c dquote then
              let i := i + 1 in
              let start := i in
              match inner (S n) line n i with
              | None => None
              | Some i =>
                  let fields := fields ++ [replace_bs_quote (slice start i line)] in
                  let i := if (i <? n)%nat then i + 1 else i in
                  outer fuel' line n i fields
              end
            else outer fuel' line n (i + 1) fields
        end
      else Some fields
  end.

Definition _parse_quoted_fields (line : string) : option (list string) :=
  let n := String.length line in
  outer (S n) line n 0 [].

End Loop.

(** The same scan by recursion on the unread text.  [outside s] is the outer
    loop with [s = line[i:]]; [inside s] is the inner loop: it returns the text
    captured up to the closing quote (or to the end of input) and the fields
    of what follows that quote. *)
Fixpoint outside (s : string) : list string :=
  match s with
  | EmptyString => []
  | String c r =>
      if Ascii.eqb c dquote then
        let '(body, more) := inside r in replace_bs_quote body :: more
      else outside r
  end
with inside (s : string) : string * list string :=
  match s with
  | EmptyString => (EmptyString, [])
  | String c r =>
      if Ascii.eqb c dquote then (EmptyString, outside r)
      else if Ascii.eqb c backslash then
        match r with
        | EmptyString => (String c EmptyString, [])
        | String d r' =>
            let '(body, more) := inside r' in (String c (String d body), more)
        end
      else let '(body, more) := inside r in (String c body, more)
  end.

Definition _parse_quoted_fields (line : string) : list string := outside line.

(** ** [cdn_log_parser.FIELD_NAMES] *)

Definition FIELD_NAMES : list string :=
  [ "remote_addr"; "_"; "remote_user"; "time_local"; "request"; "status";
    "body_bytes_sent"; "http_referer"; "http_user_agent"; "bytes_sent";
    "edgename"; "scheme"; "host"; "request_time"; "upstream_response_time";
    "request_length"; "http_range"; "responding_node";
    "upstream_cache_status"; "upstream_response_length"; "upstream_addr";
    "gcdn_api_client_id"; "gcdn_api_resource_id"; "uid_got"; "uid_set";
    "geoip_country_code"; "geoip_city"; "shield_type"; "server_addr";
    "server_port"; "upstream_status"; "_2"; "upstream_connect_time";
    "upstream_header_time"; "shard_addr"; "geoip2_data_asnumber";
    "connection"; "connection_requests"; "http_traceparent";
    "http_x_forwarded_proto"; "gcdn_internal_status_code"; "ssl_cipher";
    "ssl_session_id"; "ssl_session_reused"; "sent_http_content_type";
    "tcpinfo_rtt"; "server_country_code"; "gcdn_tcpinfo_snd_cwnd";
    "gcdn_tcpinfo_total_retrans"; "gcdn_rule_id" ].

(** ** [cdn_log_parser.ParsedCDNLog] *)

Record ParsedCDNLog : Type := mkParsedCDNLog {
  raw : string;
  remote_addr : string;
  time_local : string;
  request : string;
  method : string;
  path : string;
  status : string;
  body_bytes_sent : string;
  http_referer : string;
  http_user_agent : string;
  bytes_sent : string;
  edgename : string;
  scheme : string;
  host : string;
  request_time : string;
  upstream_cache_status : string;
  geoip_country_code : string;
  sent_http_content_type : string;
  attributes : PyDict.dict string
}.

(** [_strip_brackets] *)
Definition _strip_brackets (s : string) : string :=
  if is_empty s then "" else strip_chars "[]" s.

(** [parse_request] *)
Definition parse_request (request : string) : string * string :=
  match split_ws 2 request with
  | p0 :: p1 :: _ => (p0, p1)
  | [p0] => (p0, "")
  | [] => ("", "")
  end.

(** The test applied to a trimmed token [s] in [_find_request_field]. *)
Definition starts_with_method (s : string) : bool :=
  startswith "GET " s || startswith "POST " s || startswith "HEAD " s
  || startswith "PUT " s || startswith "OPTIONS " s.

Definition looks_like_request (s : string) : bool :=
  starts_with_method s && (contains " " (strip (drop 4 s)) && contains "/" s).

(** [_find_request_field] *)
Fixpoint _find_request_field (fields : list string) : string :=
  match fields with
  | [] => ""
  | f :: rest =>
      let s := strip (or_else f "") in
      if looks_like_request s then s else _find_request_field rest
  end.

(** [_find_cmcd_raw_field] *)
Fixpoint _find_cmcd_raw_field (fields : list string) : string :=
  match fields with
  | [] => ""
  | f :: rest =>
      let s := strip (or_else f "") in
      if startswith "CMCD=" s || startswith "cmcd=" s then s
      else _find_cmcd_raw_field rest
  end.

(** ** [urllib.parse.parse_qs], [cmcd_parser] and [parse_gcore_log_line] *)

Section Decoder.

(** What [urllib.parse.unquote] returns for a string that contains a percent
    sign. *)
Variable pct_decode : string -> string.

(** [urllib.parse.unquote]: a string without a percent sign is returned as it
    is. *)
Definition unquote (s : string) : string :=
  if contains "%" s then pct_decode s else s.

(** [urllib.parse.parse_qsl(qs, keep_blank_values=True)]: split at [&], drop
    empty pieces, split each piece at its first [=] (a piece without one gets
    the empty value), turn [+] into a space and unquote name and value. *)
Definition parse_qsl (qs : string) : list (string * string) :=
  let query_args := if is_empty qs then [] else split "&" qs in
  flat_map
    (fun name_value =>
       if is_empty name_value then []
       else
         let '(name, _, value) := partition "=" name_value in
         [(unquote (replace_char "+" " " name),
           unquote (replace_char "+" " " value))])
    query_args.

(** [urllib.parse.parse_qs(qs, keep_blank_values=True)]: the values of each
    name, in order of occurrence. *)
Definition parse_qs (qs : string) : PyDict.dict (list string) :=
  fold_left
    (fun parsed_result '(name, value) =>
       match PyDict.get name parsed_result with
       | Some vs => PyDict.set name (vs ++ [value]) parsed_result
       | None => PyDict.set name [value] parsed_result
       end)
    (parse_qsl qs) [].

(** [_clean], local to [parse_cmcd_from_query_string] *)
Definition _clean (v : string) : string :=
  let v := strip (or_else v "") in
  let is_quote (o : option ascii) :=
    match o with
    | Some c => Ascii.eqb c dquote
    | None => false
    end in
  if (2 <=? String.length v)%nat && is_quote (String.get 0 v)
     && is_quote (last_char v)
  then slice 1 (String.length v - 1) v
  else v.

(** One iteration of [for pair in raw.split(",")]. *)
Definition add_pair (out : PyDict.dict string) (pair : string)
  : PyDict.dict string :=
  let pair := strip pair in
  if contains "=" pair then
    let '(k, _, v) := partition "=" pair in
    let k := strip k in
    let v := strip v in
    if is_empty k then out else PyDict.set ("cmcd." ++ k) (_clean v) out
  else out.

(** One iteration of [for key, values in params.items()]. *)
Definition add_prefixed (out : PyDict.dict string) (item : string * list string)
  : PyDict.dict string :=
  let '(key, values) := item in
  match values with
  | v0 :: _ =>
      if startswith "cmcd." key then
        let cmcd_key := drop 5 key in
        if is_empty cmcd_key then out
        else PyDict.set ("cmcd." ++ cmcd_key) (_clean (or_else v0 "")) out
      else out
  | [] => out
  end.

(** [next((params[k] for k in params if k.lower() == "cmcd"), None)] *)
Definition find_cmcd_param (params : PyDict.dict (list string))
  : option (list string) :=
  match find (fun k => String.eqb (lower k) "cmcd") (PyDict.keys params) with
  | Some k => PyDict.get k params
  | None => None
  end.

(** [parse_cmcd_from_query_string] *)
Definition parse_cmcd_from_query_string (query_string : string)
  : PyDict.dict string :=
  if is_empty query_string || is_empty (strip query_string) then []
  else
    let params := parse_qs query_string in
    let cmcd_param := find_cmcd_param params in
    let out :=
      fold_left
        (fun out raw => fold_left add_pair (split "," raw) out)
        (match cmcd_param with
         | Some vs => vs
         | None => []
         end)
        [] in
    fold_left add_prefixed params out.

(** [parse_cmcd_from_path] *)
Definition parse_cmcd_from_path (path_with_query : string)
  : PyDict.dict string :=
  if is_empty path_with_query then []
  else if contains "?" path_with_query then
    let '(_, _, qs) := partition "?" path_with_query in
    parse_cmcd_from_query_string qs
  else [].

(** [get], local to [parse_gcore_log_line] *)
Definition get (fields : list string) (idx : nat) (default : string) : string :=
  match nth_error fields idx with
  | Some f => or_else (strip f) default
  | None => default
  end.

(** One iteration of [for idx, name in enumerate(FIELD_NAMES)]. *)
Definition column_step (fields : list string) (attrs : PyDict.dict string)
  (item : nat * string) : PyDict.dict string :=
  let '(idx, name) := item in
  if startswith "_" name then attrs
  else
    match nth_error fields idx with
    | Some f => PyDict.set ("cdn." ++ name) (or_else (strip f) "-") attrs
    | None => attrs
    end.

(** [for idx, name in enumerate(FIELD_NAMES): ...] *)
Definition column_attrs (fields : list string) : PyDict.dict string :=
  fold_left (column_step fields)
    (combine (seq 0 (List.length FIELD_NAMES)) FIELD_NAMES) [].

(** One iteration of [for k, v in cmcd_attrs.items()]. *)
Definition merge_step (attrs : PyDict.dict string) (item : string * string)
  : PyDict.dict string :=
  let '(k, v) := item in
  if is_empty v then attrs else PyDict.set k v attrs.

(** [for k, v in cmcd_attrs.items(): if v: attrs[k] = v] *)
Definition merge_cmcd (attrs cmcd_attrs : PyDict.dict string)
  : PyDict.dict string :=
  fold_left merge_step cmcd_attrs attrs.

(** The metrics mapping of a record: from the path, else from a raw field. *)
Definition cmcd_of (fields : list string) (path : string) : PyDict.dict string :=
  let cmcd_attrs := parse_cmcd_from_path path in
  match cmcd_attrs with
  | [] =>
      let raw_cmcd := _find_cmcd_raw_field fields in
      if is_empty raw_cmcd then cmcd_attrs
      else parse_cmcd_from_query_string raw_cmcd
  | _ :: _ => cmcd_attrs
  end.

(** [parse_gcore_log_line] *)
Definition parse_gcore_log_line (line : string) : option ParsedCDNLog :=
  let line := strip line in
  if is_empty line then None
  else
    let fields := _parse_quoted_fields line in
    if (List.length fields <? 10)%nat then None
    else
      let attrs := column_attrs fields in
      let time_local := _strip_brackets (get fields 3 "") in
      let request := or_else (_find_request_field fields) (get fields 4 "") in
      let '(method, path) := parse_request request in
      let cmcd_attrs := cmcd_of fields path in
      let attrs := merge_cmcd attrs cmcd_attrs in
      Some {|
        raw := line;
        remote_addr := get fields 0 "";
        time_local := time_local;
        request := request;
        method := method;
        path := path;
        status := get fields 5 "";
        body_bytes_sent := get fields 6 "";
        http_referer := get fields 7 "";
        http_user_agent := get fields 8 "";
        bytes_sent := get fields 9 "";
        edgename := _strip_brackets (get fields 10 "");
        scheme := get fields 11 "";
        host := get fields 12 "";
        request_time := get fields 13 "";
        upstream_cache_status := get fields 18 "";
        geoip_country_code := get fields 25 "";
        sent_http_content_type := get fields 39 "";
        attributes := attrs
      |}.

End Decoder.

(** [otel_exporter.emit_parsed_log] hands [body=parsed.raw] to the logger. *)
Definition emitted_body (parsed : ParsedCDNLog) : string := raw parsed.

(** ** Notions used to state the properties *)

(** The number of characters the inner loop of the tokenizer advances over
    when it starts at the head of [s]. *)
Fixpoint body_span (s : string) : nat :=
  match s with
  | EmptyString => 0
  | String c r =>
      if Ascii.eqb c dquote then 0
      else if Ascii.eqb c backslash then
        match r with
        | EmptyString => 2
        | String _ r' => 2 + body_span r'
        end
      else 1 + body_span r
  end.

(** Where the scan stands between two characters: between fields, within a
    field, or within a field right after a backslash. *)
Inductive scan_mode : Type := Outside | Inside | Escaped.

Definition scan_step (m : scan_mode) (c : ascii) : scan_mode :=
  match m with
  | Outside => if Ascii.eqb c dquote then Inside else Outside
  | Inside =>
      if Ascii.eqb c dquote then Outside
      else if Ascii.eqb c backslash then Escaped else Inside
  | Escaped => Inside
  end.

Fixpoint scan_from (m : scan_mode) (s : string) : scan_mode :=
  match s with
  | EmptyString => m
  | String c r => scan_from (scan_step m c) r
  end.

(** A double quote that follows [pre] opens a field. *)
Definition opens_field_after (pre : string) : Prop :=
  scan_from Outside pre = Outside.

(** [rest], read within a field, holds no unescaped double quote. *)
Fixpoint unclosed_from (m : scan_mode) (rest : string) : bool :=
  match rest with
  | EmptyString => true
  | String c r =>
      match scan_step m c with
      | Outside => false
      | m' => unclosed_from m' r
      end
  end.

Definition no_closing_quote (rest : string) : bool := unclosed_from Inside rest.

(** The request shape, in words.  [remainder_after m s] is the text of [s]
    after the method name [m] and one space, when [s] begins with them. *)
Definition HTTP_METHODS : list string :=
  ["GET"; "POST"; "HEAD"; "PUT"; "OPTIONS"].

Definition remainder_after (m s : string) : option string :=
  if startswith (m ++ " ") s then Some (drop (S (String.length m)) s) else None.

(** A known method, a space, and a remainder that contains a slash and a
    second whitespace-separated word. *)
Definition shaped_by_words (s : string) : bool :=
  existsb
    (fun m =>
       match remainder_after m s with
       | Some rem =>
           contains "/" rem && (2 <=? List.length (split_ws 1 rem))%nat
       | None => false
       end)
    HTTP_METHODS.

(** A known method, a space, and a remainder that contains a slash and,
    once trimmed, a space character. *)
Definition shaped_by_space (s : string) : bool :=
  existsb
    (fun m =>
       match remainder_after m s with
       | Some rem => contains "/" rem && contains " " (strip rem)
       | None => false
       end)
    HTTP_METHODS.

(** [OPTIONS], a space, and a remainder with a slash but, once trimmed, no
    space character. *)
Definition options_without_protocol (s : string) : bool :=
  match remainder_after "OPTIONS" s with
  | Some rem => contains "/" rem && negb (contains " " (strip rem))
  | None => false
  end.

(** The request text chosen by shape: the first token, left to right, whose
    trimmed text has the shape, else the trimmed fifth token. *)
Definition request_by_shape (fields : list string) : string :=
  match find (fun f => shaped_by_space (strip f)) fields with
  | Some f => strip f
  | None => get fields 4 ""
  end.

(** The marker test of [_find_cmcd_raw_field] on a trimmed token, and the
    same test made on the lower-cased token. *)
Definition has_cmcd_marker (s : string) : bool :=
  startswith "CMCD=" s || startswith "cmcd=" s.

Definition has_cmcd_marker_any_case (s : string) : bool :=
  startswith "cmcd=" (lower s).

(** The keys of a metrics mapping are unique and begin with [cmcd.]. *)
Definition metrics_keys (d : PyDict.dict string) : Prop :=
  NoDup (PyDict.keys d)
  /\ forall k, In k (PyDict.keys d) -> startswith "cmcd." k = true.

(** Absence of duplicates, as a test. *)
Fixpoint nodupb (l : list string) : bool :=
  match l with
  | [] => true
  | x :: r => negb (existsb (String.eqb x) r) && nodupb r
  end.

(** ** Concrete inputs *)

(** A field between double quotes. *)
Definition quoted (s : string) : string :=
  String dquote (s ++ String dquote "").

(** Quoted fields separated by one space. *)
Definition log_line (fields : list string) : string :=
  String.concat " " (map quoted fields).

(** A percent-decoder to run the decoder with; the inputs below hold no
    percent sign. *)
Definition no_decoding : string -> string := fun s => s.

Definition sample_fields : list string :=
  [ "203.0.113.7"; "-"; "-"; "[26/Apr/2019:09:47:40 +0000]";
    "GET /vod/seg.m4s?cmcd=ot=v,br=3200 HTTP/1.1"; "200"; "1024"; "-";
    "Mozilla/5.0"; "1300"; "[edge-1]"; "https" ].

Definition sample_line : string := log_line sample_fields.

(** The sample line with a space before and after it. *)
Definition padded_line : string := (" " ++ sample_line ++ " ")%string.

(** A line whose request has no query and whose last field carries the
    metrics under a capitalised marker. *)
Definition mixed_case_fields : list string :=
  [ "203.0.113.7"; "-"; "-"; "[26/Apr/2019:09:47:40 +0000]";
    "GET /vod/seg.m4s HTTP/1.1"; "200"; "1024"; "-"; "Mozilla/5.0"; "1300";
    "Cmcd=br=3200" ].

Definition mixed_case_line : string := log_line mixed_case_fields.

(** The same line with the marker in upper case. *)
Definition upper_case_fields : list string :=
  [ "203.0.113.7"; "-"; "-"; "[26/Apr/2019:09:47:40 +0000]";
    "GET /vod/seg.m4s HTTP/1.1"; "200"; "1024"; "-"; "Mozilla/5.0"; "1300";
    "CMCD=br=3200" ].

Definition upper_case_line : string := log_line upper_case_fields.

(** A line whose first field is a request with a tab between path and
    protocol, and whose fifth field is a request written with spaces. *)
Definition tab : ascii := ascii_of_nat 9.

Definition tab_request : string := ("GET /a" ++ String tab "HTTP/1.1")%string.

Definition tab_fields : list string :=
  [ tab_request; "-"; "-"; "[26/Apr/2019:09:47:40 +0000]";
    "GET /b HTTP/1.1"; "200"; "1024"; "-"; "Mozilla/5.0"; "1300" ].

Definition tab_line : string := log_line tab_fields.

(** A line whose request is the second field and whose fifth is a dash. *)
Definition shifted_fields : list string :=
  [ "203.0.113.7"; "GET /x HTTP/1.1"; "-"; "[26/Apr/2019:09:47:40 +0000]";
    "-"; "200"; "1024"; "-"; "Mozilla/5.0"; "1300" ].

Definition shifted_line : string := log_line shifted_fields.

(** A line with an empty third field and a metrics key without a value. *)
Definition empty_values_fields : list string :=
  [ "203.0.113.7"; "-"; ""; "[26/Apr/2019:09:47:40 +0000]";
    "GET /vod/seg.m4s?cmcd=br=,ot=v HTTP/1.1"; "200"; "1024"; "-";
    "Mozilla/5.0"; "1300" ].

Definition empty_values_line : string := log_line empty_values_fields.

(** A line of 45 fields: position 39 holds [https], position 44 [video/mp4]. *)
Definition wide_fields : list string :=
  sample_fields ++ repeat "-" 27 ++ ["https"] ++ repeat "-" 4 ++ ["video/mp4"].

Definition wide_line : string := log_line wide_fields.

(** A line with metrics in its path and others in a raw marker field. *)
Definition both_places_fields : list string :=
  sample_fields ++ ["CMCD=bl=900"].

Definition both_places_line : string := log_line both_places_fields.

(** The text [a], backslash, double quote, [b]. *)
Definition escaped_rest : string :=
  String "a" (String backslash (String dquote "b")).

(** ** [collector._normalize_prefix] *)

(** [s.endswith(suf)] *)
Definition endswith (suf s : string) : bool :=
  (String.length suf <=? String.length s)%nat
  && String.eqb (drop (String.length s - String.length suf) s) suf.

(** [_normalize_prefix] *)
Definition _normalize_prefix (p : string) : string :=
  if endswith "/" p then p else (p ++ "/")%string.

(** ** [otel_exporter.emit_parsed_log] *)

(** [str(v)] of a [str] *)
Definition py_str (v : string) : string := v.

(** The arguments [emit_parsed_log] passes to [logger.emit], but for the two
    timestamps, which are read off the clock or parsed by [strptime]. *)
Record LogRecord : Type := mkLogRecord {
  body : string;
  severity_number : nat;
  severity_text : string;
  log_attributes : PyDict.dict string
}.

Definition emit_parsed_log (parsed : ParsedCDNLog) (s3_key : option string)
  : LogRecord :=
  let attrs := attributes parsed in
  let attrs :=
    match s3_key with
    | Some k => if is_empty k then attrs else PyDict.set "cdn.s3_key" k attrs
    | None => attrs
    end in
  let attrs := map (fun kv => (fst kv, py_str (snd kv))) attrs in
  {| body := raw parsed;
     severity_number := 9;
     severity_text := "INFO";
     log_attributes := attrs |}.

(** ** [s3_source.list_log_objects] *)

(** A [datetime]: its wall-clock reading in microseconds and, when it is
    aware, its offset from UTC. *)
Record datetime : Type := mkdatetime {
  wall_us : Z;
  utcoffset_us : option Z
}.

(** The instant of an aware [datetime]; a naive one is read as UTC, which is
    what [last_modified.replace(tzinfo=timezone.utc)] makes of it. *)
Definition instant (d : datetime) : Z :=
  (wall_us d - match utcoffset_us d with
               | Some o => o
               | None => 0
               end)%Z.

(** An entry of a page's [Contents]. *)
Record S3Object : Type := mkS3Object {
  Key : string;
  LastModified : datetime;
  Size : option Z
}.

(** [page.get("Contents") or []] of a page given by its [Contents], if any. *)
Definition contents (page : option (list S3Object)) : list S3Object :=
  match page with
  | Some objs => objs
  | None => []
  end.

(** What [list_log_objects] yields for one object. *)
Definition list_log_object (since : option datetime) (suffix : string)
  (obj : S3Object) : list (string * datetime * Z) :=
  let key := Key obj in
  if negb (endswith suffix key) then []
  else
    let last_modified := LastModified obj in
    let too_old :=
      match since with
      | Some since => (instant last_modified <? instant since)%Z
      | None => false
      end in
    if too_old then []
    else
      let size := match Size obj with
                  | Some n => n
                  | None => 0%Z
                  end in
      [(key, last_modified, size)].

(** [list_log_objects] over the pages the paginator returns; [since], when
    given, is an aware [datetime]. *)
Definition list_log_objects (pages : list (option (list S3Object)))
  (since : option datetime) (suffix : string) : list (string * datetime * Z) :=
  flat_map (fun page => flat_map (list_log_object since suffix) (contents page))
           pages.

(** ** [collector._iter_keys] *)

(** [if n] for an optional integer *)
Definition truthy (n : option Z) : bool :=
  match n with
  | Some z => negb (z =? 0)%Z
  | None => false
  end.

(** [n and count >= n] *)
Definition reached (n : option Z) (count : Z) : bool :=
  match n with
  | Some z => negb (z =? 0)%Z && (z <=? count)%Z
  | None => false
  end.

Section Iter_keys.

(** The pages listed under a prefix, and the reading of the clock. *)
Variable paginate : string -> list (option (list S3Object)).
Variable now : datetime.
Variable since : option datetime.

(** The inner loop: the objects yielded so far, the count, and whether the
    generator returned. *)
Fixpoint iter_objects (max_objects : option Z)
  (objs : list (string * datetime * Z)) (count : Z)
  (out : list (string * datetime * Z))
  : list (string * datetime * Z) * Z * bool :=
  match objs with
  | [] => (out, count, false)
  | o :: rest =>
      let out := out ++ [o] in
      let count := (count + 1)%Z in
      if reached max_objects count then (out, count, true)
      else iter_objects max_objects rest count out
  end.

(** The outer loop over the prefixes. *)
Fixpoint iter_prefixes (max_objects : option Z) (prefixes : list string)
  (count : Z) (out : list (string * datetime * Z))
  : list (string * datetime * Z) :=
  match prefixes with
  | [] => out
  | prefix :: rest =>
      let '(out, count, returned) :=
        iter_objects max_objects
          (list_log_objects (paginate prefix) since "_access.log.gz")
          count out in
      if returned then out else iter_prefixes max_objects rest count out
  end.

(** [_iter_keys]: everything the generator yields. *)
Definition _iter_keys (single_key : option string) (prefixes : list string)
  (max_objects : option Z) : list (string * datetime * Z) :=
  match single_key with
  | Some k =>
      if is_empty k then iter_prefixes max_objects prefixes 0%Z []
      else [(k, now, 0%Z)]
  | None => iter_prefixes max_objects prefixes 0%Z []
  end.

End Iter_keys.

(** The objects a limit lets through: all of them without a limit or with
    the limit 0, else as many as the limit says, and one for a negative
    limit. *)
Definition limited {A : Type} (max_objects : option Z) (l : list A) : list A :=
  match max_objects with
  | Some z => if (z =? 0)%Z then l else firstn (Z.to_nat (Z.max 1 z)) l
  | None => l
  end.

(** ** [collector.run] *)

Section Run.

(** The percent-decoder, the pages listed under a prefix, the lines of an
    object as [stream_log_lines] yields them, and the clock as [_iter_keys]
    reads it. *)
Variable pct_decode : string -> string.
Variable paginate : string -> list (option (list S3Object)).
Variable stream_log_lines : string -> list string.
Variable now : datetime.

(** The loop over the lines of one object, with the count of emitted records
    and the records handed to the logger so far. *)
Fixpoint run_lines (max_lines_per_file : option Z) (key_item : string)
  (lines : list string) (line_count emitted : Z) (logs : list LogRecord)
  : Z * list LogRecord :=
  match lines with
  | [] => (emitted, logs)
  | line :: rest =>
      if reached max_lines_per_file line_count then (emitted, logs)
      else
        let '(emitted, logs) :=
          match parse_gcore_log_line pct_decode line with
          | Some parsed =>
              ((emitted + 1)%Z,
               logs ++ [emit_parsed_log parsed (Some key_item)])
          | None => (emitted, logs)
          end in
        run_lines max_lines_per_file key_item rest (line_count + 1)%Z
                  emitted logs
  end.

(** The loop over the objects. *)
Fixpoint run_objects (max_objects max_lines_per_file : option Z)
  (keys : list (string * datetime * Z)) (objects_processed emitted : Z)
  (logs : list LogRecord) : Z * list LogRecord :=
  match keys with
  | [] => (emitted, logs)
  | (key_item, _, _) :: rest =>
      let '(emitted, logs) :=
        run_lines max_lines_per_file key_item (stream_log_lines key_item)
                  0%Z emitted logs in
      let objects_processed := (objects_processed + 1)%Z in
      if reached max_objects objects_processed then (emitted, logs)
      else run_objects max_objects max_lines_per_file rest
                       objects_processed emitted logs
  end.

(** [run]: the number it returns and the records it hands to the logger.
    [since] is the cutoff that [run] computes from [since_minutes]; what is
    printed is left out. *)
Definition run (prefixes : list string) (since : option datetime)
  (dry_run : bool) (max_objects max_lines_per_file : option Z)
  (inspect_cmcd : bool) (key : option string) : Z * list LogRecord :=
  let prefixes := map _normalize_prefix prefixes in
  let no_key := match key with
                | Some k => is_empty k
                | None => true
                end in
  let keys_iter :=
    _iter_keys paginate now since key prefixes
      (if no_key then max_objects else Some 1%Z) in
  if dry_run then (0%Z, [])
  else if inspect_cmcd then (0%Z, [])
  else run_objects max_objects max_lines_per_file keys_iter 0%Z 0%Z [].

End Run.

(** The lines a per-file limit lets through: all of them without a limit or
    with the limit 0, the first ones up to a positive limit, none for a
    negative one. *)
Definition limited_lines {A : Type} (max_lines_per_file : option Z)
  (l : list A) : list A :=
  match max_lines_per_file with
  | Some z => if (z =? 0)%Z then l else firstn (Z.to_nat z) l
  | None => l
  end.

(** The record a line gives rise to, if any. *)
Definition line_logs (pct_decode : string -> string) (key_item line : string)
  : list LogRecord :=
  match parse_gcore_log_line pct_decode line with
  | Some parsed => [emit_parsed_log parsed (Some key_item)]
  | None => []
  end.

(** The records an object gives rise to under a per-file limit. *)
Definition object_logs (pct_decode : string -> string)
  (stream_log_lines : string -> list string) (max_lines_per_file : option Z)
  (item : string * datetime * Z) : list LogRecord :=
  flat_map (line_logs pct_decode (fst (fst item)))
           (limited_lines max_lines_per_file (stream_log_lines (fst (fst item)))).

(** ** A concrete run *)

Definition epoch : datetime := {| wall_us := 0; utcoffset_us := Some 0%Z |}.

(** One page with an access log and another object under every prefix. *)
Definition sample_paginate (prefix : string) : list (option (list S3Object)) :=
  [ Some [ {| Key := (prefix ++ "a_access.log.gz")%string;
              LastModified := epoch; Size := Some 100%Z |};
           {| Key := (prefix ++ "readme.txt")%string;
              LastModified := epoch; Size := None |} ];
    None ].

(** Three lines in every object, the second of which is no record. *)
Definition sample_stream (key : string) : list string :=
  [padded_line; "not a record"; sample_line].

Definition sample_run : Z * list LogRecord :=
  run no_decoding sample_paginate sample_stream epoch ["logs"] None false
      None None false None.

(** The text fields of a record that are trimmed tokens or parts of one. *)
Definition trimmed_fields : list (ParsedCDNLog -> string) :=
  [ raw; remote_addr; request; method; path; status; body_bytes_sent;
    http_referer; http_user_agent; bytes_sent; scheme; host; request_time;
    upstream_cache_status; geoip_country_code; sent_http_content_type ].

(** ** Writing a line *)

(** A field with every double quote preceded by a backslash. *)
Fixpoint escape_quotes (s : string) : string :=
  match s with
  | EmptyString => EmptyString
  | String c r =>
      if Ascii.eqb c dquote
      then String backslash (String dquote (escape_quotes r))
      else String c (escape_quotes r)
  end.

(** The fields, escaped and between double quotes, each followed by [sep]. *)
Fixpoint write_line (sep : string) (fields : list string) : string :=
  match fields with
  | [] => EmptyString
  | f :: rest => (quoted (escape_quotes f) ++ sep ++ write_line sep rest)%string
  end.

(** The number of occurrences of [c] in [s]. *)
Fixpoint count_char (c : ascii) (s : string) : nat :=
  match s with
  | EmptyString => 0
  | String d r => (if Ascii.eqb d c then 1 else 0) + count_char c r
  end.

(** ** The scalar fields of a record filled by [get] alone *)

(** The positions read by the [ParsedCDNLog(...)] call of
    [parse_gcore_log_line] with the record field each one fills, and between
    them the name [FIELD_NAMES] gives that position.  The names are those of
    the fields, but for position 39: it fills [sent_http_content_type] and is
    named [http_x_forwarded_proto]. *)
Definition scalar_columns : list (nat * string * (ParsedCDNLog -> string)) :=
  [ (0, "remote_addr", remote_addr); (5, "status", status);
    (6, "body_bytes_sent", body_bytes_sent); (7, "http_referer", http_referer);
    (8, "http_user_agent", http_user_agent); (9, "bytes_sent", bytes_sent);
    (11, "scheme", scheme); (12, "host", host);
    (13, "request_time", request_time);
    (18, "upstream_cache_status", upstream_cache_status);
    (25, "geoip_country_code", geoip_country_code);
    (39, "http_x_forwarded_proto", sent_http_content_type) ].

(** ** Character classes of a text *)

(** Some character of [s] is whitespace. *)
Fixpoint has_space (s : string) : bool :=
  match s with
  | EmptyString => false
  | String c r => isspace c || has_space r
  end.

(** [s] holds none of [&], [+] and [%]: text that [urllib.parse.parse_qs]
    neither splits nor rewrites. *)
Definition query_safe (s : string) : bool :=
  negb (contains "&" s || contains "+" s || contains "%" s).

(** Text that [str.strip] leaves as it is, too: no whitespace either. *)
Definition plain (s : string) : bool := query_safe s && negb (has_space s).

(** The text [k=v] of a metrics pair. *)
Definition pair_text (kv : string * string) : string :=
  (fst kv ++ "=" ++ snd kv)%string.

(** A pair the combined form carries as it is: a non-empty key, and neither
    key nor value holds whitespace, [&], [+], [%] or a comma, nor the key an
    equals sign. *)
Definition carried_pair (kv : string * string) : bool :=
  negb (is_empty (fst kv)) && plain (fst kv) && plain (snd kv)
  && negb (contains "=" (fst kv))
  && negb (contains "," (fst kv)) && negb (contains "," (snd kv)).

(** The assignments [out[cmcd.k] = _clean(v)] made in order. *)
Definition assign_pairs (pairs : list (string * string)) : PyDict.dict string :=
  fold_left
    (fun out kv => PyDict.set ("cmcd." ++ fst kv) (_clean (snd kv)) out)
    pairs [].

(** * Properties *)

(** ** Strings *)

Lemma get_drop (i : nat) (s : string) :
  String.get i s = match drop i s with
                   | String c _ => Some c
                   | EmptyString => None
                   end.
Proof.
  revert s; induction i as [|i IH]; intros [|c r]; simpl; auto.
Qed.

Lemma drop_empty (i : nat) : drop i "" = "".
Proof. destruct i; reflexivity. Qed.

Lemma drop_drop (a b : nat) (s : string) : drop a (drop b s) = drop (b + a) s.
Proof.
  revert s; induction b as [|b IH]; intros s; simpl; auto.
  destruct s as [|c r]; simpl; auto using drop_empty.
Qed.

Lemma drop_length (i : nat) (s : string) :
  String.length (drop i s) = String.length s - i.
Proof.
  revert s; induction i as [|i IH]; intros [|c r]; simpl; auto.
Qed.

Lemma drop_all (i : nat) (s : string) : String.length s <= i -> drop i s = "".
Proof.
  intros H. pose proof (drop_length i s) as L.
  destruct (drop i s); [reflexivity | simpl in L; lia].
Qed.

Lemma drop_cons (i : nat) (s : string) (c : ascii) (r : string) :
  drop i s = String c r ->
  drop (i + 1) s = r /\ String.length s = i + S (String.length r).
Proof.
  intros H. split.
  - rewrite <- drop_drop, H. reflexivity.
  - pose proof (drop_length i s) as L. rewrite H in L. simpl in L. lia.
Qed.

Lemma take_all (n : nat) (s : string) : String.length s <= n -> take n s = s.
Proof.
  revert s; induction n as [|n IH]; intros [|c r] H; simpl in *; auto; try lia.
  f_equal. apply IH. lia.
Qed.

Lemma append_empty_r (s : string) : (s ++ "")%string = s.
Proof. induction s; simpl; congruence. Qed.

Lemma append_assoc (a b c : string) :
  ((a ++ b) ++ c)%string = (a ++ (b ++ c))%string.
Proof. induction a; simpl; congruence. Qed.

(** Induction that may look two characters back. *)
Lemma string_ind2 (P : string -> Prop) :
  P "" ->
  (forall c, P (String c "")) ->
  (forall c d r, P r -> P (String d r) -> P (String c (String d r))) ->
  forall s, P s.
Proof.
  intros H0 H1 H2 s.
  assert (H : P s /\ forall c, P (String c s)).
  { induction s as [|d r [IHa IHb]]; split; auto. }
  apply H.
Qed.

(** ** The tokenizer: the loops and the recursive scan agree *)

Lemma body_span_bound (s : string) : body_span s <= S (String.length s).
Proof.
  induction s as [| c | c d r IH1 IH2] using string_ind2; simpl.
  - lia.
  - destruct (Ascii.eqb c dquote), (Ascii.eqb c backslash); lia.
  - simpl in IH2.
    destruct (Ascii.eqb c dquote), (Ascii.eqb c backslash); try lia.
Qed.

Lemma inside_span (s : string) :
  inside s = (take (body_span s) s, outside (drop (S (body_span s)) s)).
Proof.
  induction s as [| c | c d r IH1 IH2] using string_ind2.
  - reflexivity.
  - simpl. destruct (Ascii.eqb c dquote), (Ascii.eqb c backslash); reflexivity.
  - change (inside (String c (String d r))) with
      (if Ascii.eqb c dquote then (EmptyString, outside (String d r))
       else if Ascii.eqb c backslash then
         let '(body, more) := inside r in (String c (String d body), more)
       else let '(body, more) := inside (String d r) in (String c body, more)).
    change (body_span (String c (String d r))) with
      (if Ascii.eqb c dquote then 0
       else if Ascii.eqb c backslash then 2 + body_span r
       else 1 + body_span (String d r)).
    destruct (Ascii.eqb c dquote); [reflexivity|].
    destruct (Ascii.eqb c backslash).
    + rewrite IH1. reflexivity.
    + rewrite IH2. reflexivity.
Qed.

Lemma inner_span (fuel : nat) (line : string) (i : nat) :
  String.length (drop i line) < fuel ->
  Loop.inner fuel line (String.length line) i
  = Some (i + body_span (drop i line)).
Proof.
  revert i. induction fuel as [|fuel IH]; intros i Hf; [lia|].
  simpl. unfold Loop.index. rewrite get_drop.
  destruct (drop i line) as [|c r] eqn:E.
  - pose proof (drop_length i line) as L. rewrite E in L. simpl in L.
    replace (i <? String.length line)%nat with false
      by (symmetry; apply Nat.ltb_ge; lia).
    simpl. f_equal. lia.
  - destruct (drop_cons _ _ _ _ E) as [E1 Hlt].
    replace (i <? String.length line)%nat with true
      by (symmetry; apply Nat.ltb_lt; lia).
    change (body_span (String c r)) with
      (if Ascii.eqb c dquote then 0
       else if Ascii.eqb c backslash then
         match r with
         | EmptyString => 2
         | String _ r' => 2 + body_span r'
         end
       else 1 + body_span r).
    destruct (Ascii.eqb c dquote); [f_equal; lia|].
    simpl in Hf.
    destruct (Ascii.eqb c backslash).
    + rewrite IH.
      * rewrite <- drop_drop, E1. destruct r as [|d r']; simpl.
        -- f_equal. lia.
        -- f_equal. lia.
      * rewrite <- drop_drop, E1. destruct r as [|d r']; simpl in *; lia.
    + rewrite IH; rewrite E1; [f_equal; lia | lia].
Qed.

Lemma outer_outside (fuel : nat) (line : string) (i : nat) (acc : list string) :
  String.length (drop i line) < fuel ->
  Loop.outer fuel line (String.length line) i acc
  = Some (acc ++ outside (drop i line)).
Proof.
  revert i acc. induction fuel as [|fuel IH]; intros i acc Hf; [lia|].
  cbn [Loop.outer]. unfold Loop.index. rewrite get_drop.
  destruct (drop i line) as [|c r] eqn:E.
  - pose proof (drop_length i line) as L. rewrite E in L. simpl in L.
    replace (i <? String.length line)%nat with false
      by (symmetry; apply Nat.ltb_ge; lia).
    simpl. now rewrite app_nil_r.
  - destruct (drop_cons _ _ _ _ E) as [E1 Hlt].
    replace (i <? String.length line)%nat with true
      by (symmetry; apply Nat.ltb_lt; lia).
    simpl in Hf.
    change (outside (String c r)) with
      (if Ascii.eqb c dquote then
         let '(body, more) := inside r in replace_bs_quote body :: more
       else outside r).
    destruct (Ascii.eqb c dquote).
    + rewrite inner_span by (rewrite E1; lia).
      rewrite E1, inside_span.
      pose proof (body_span_bound r) as B.
      set (k := body_span r) in *.
      assert (Hs : slice (i + 1) (i + 1 + k) line = take k r).
      { unfold slice. rewrite E1. f_equal. lia. }
      rewrite Hs.
      destruct (i + 1 + k <? String.length line)%nat eqn:Hk.
      * apply Nat.ltb_lt in Hk.
        rewrite IH.
        -- rewrite <- app_assoc. cbn [app].
           replace (i + 1 + k + 1) with (i + 1 + S k) by lia.
           now rewrite <- drop_drop, E1.
        -- rewrite drop_length. lia.
      * apply Nat.ltb_ge in Hk.
        rewrite IH.
        -- rewrite <- app_assoc. cbn [app].
           rewrite (drop_all (i + 1 + k)) by lia.
           rewrite (drop_all (S k) r); [reflexivity|].
           pose proof (drop_length (i + 1) line) as L. rewrite E1 in L. lia.
        -- rewrite drop_length. lia.
    + rewrite IH; rewrite E1; [reflexivity | lia].
Qed.

(** The loops never raise and never run out of iterations: on every line
    they return what the recursive scan returns. *)
Lemma loop_returns (line : string) :
  Loop._parse_quoted_fields line = Some (_parse_quoted_fields line).
Proof.
  unfold Loop._parse_quoted_fields, _parse_quoted_fields.
  rewrite outer_outside; simpl; [reflexivity | lia].
Qed.

(** ** The tokenizer on a line that ends within a field *)

Lemma scan_app (a b : string) :
  (scan_from Outside a = Outside ->
   outside (a ++ b)%string = outside a ++ outside b)
  /\ (scan_from Inside a = Outside ->
      inside (a ++ b)%string = (fst (inside a), snd (inside a) ++ outside b)).
Proof.
  induction a as [| c | c d r IH1 IH2] using string_ind2.
  - split; [reflexivity | discriminate].
  - simpl. destruct (Ascii.eqb c dquote); split; intros H;
      try discriminate; try reflexivity.
    destruct (Ascii.eqb c backslash); discriminate.
  - destruct IH1 as [_ IH1i]. destruct IH2 as [IH2o IH2i].
    change (scan_from Outside (String c (String d r))) with
      (scan_from (if Ascii.eqb c dquote then Inside else Outside) (String d r)).
    change (scan_from Inside (String c (String d r))) with
      (scan_from (if Ascii.eqb c dquote then Outside
                  else if Ascii.eqb c backslash then Escaped else Inside)
                 (String d r)).
    change (outside (String c (String d r) ++ b)%string) with
      (if Ascii.eqb c dquote then
         let '(body, more) := inside (String d r ++ b)%string in
         replace_bs_quote body :: more
       else outside (String d r ++ b)%string).
    change (outside (String c (String d r))) with
      (if Ascii.eqb c dquote then
         let '(body, more) := inside (String d r) in
         replace_bs_quote body :: more
       else outside (String d r)).
    change (inside (String c (String d r) ++ b)%string) with
      (if Ascii.eqb c dquote then (EmptyString, outside (String d r ++ b)%string)
       else if Ascii.eqb c backslash then
         let '(body, more) := inside (r ++ b)%string in
         (String c (String d body), more)
       else let '(body, more) := inside (String d r ++ b)%string in
            (String c body, more)).
    change (inside (String c (String d r))) with
      (if Ascii.eqb c dquote then (EmptyString, outside (String d r))
       else if Ascii.eqb c backslash then
         let '(body, more) := inside r in (String c (String d body), more)
       else let '(body, more) := inside (String d r) in (String c body, more)).
    destruct (Ascii.eqb c dquote).
    + split; intros H.
      * rewrite (IH2i H). destruct (inside (String d r)); reflexivity.
      * rewrite (IH2o H). reflexivity.
    + split; intros H; [exact (IH2o H)|].
      destruct (Ascii.eqb c backslash).
      * change (scan_from Escaped (String d r)) with (scan_from Inside r) in H.
        rewrite (IH1i H). destruct (inside r); reflexivity.
      * rewrite (IH2i H). destruct (inside (String d r)); reflexivity.
Qed.

Lemma unclosed_inside (rest : string) :
  no_closing_quote rest = true -> inside rest = (rest, []).
Proof.
  unfold no_closing_quote.
  induction rest as [| c | c d r IH1 IH2] using string_ind2; intros H.
  - reflexivity.
  - simpl in *. destruct (Ascii.eqb c dquote); [discriminate|].
    destruct (Ascii.eqb c backslash); reflexivity.
  - change (inside (String c (String d r))) with
      (if Ascii.eqb c dquote then (EmptyString, outside (String d r))
       else if Ascii.eqb c backslash then
         let '(body, more) := inside r in (String c (String d body), more)
       else let '(body, more) := inside (String d r) in (String c body, more)).
    change (unclosed_from Inside (String c (String d r))) with
      (match scan_step Inside c with
       | Outside => false
       | m' => unclosed_from m' (String d r)
       end) in H.
    unfold scan_step in H at 1.
    destruct (Ascii.eqb c dquote); [discriminate|].
    destruct (Ascii.eqb c backslash).
    + change (unclosed_from Escaped (String d r))
        with (unclosed_from Inside r) in H.
      rewrite (IH1 H). reflexivity.
    + rewrite (IH2 H). reflexivity.
Qed.

(** The fields of a line that ends within a field: those before the opening
    quote, then the unterminated text with its escaped quotes unescaped. *)
Lemma unterminated_fields (pre rest : string) :
  opens_field_after pre ->
  no_closing_quote rest = true ->
  _parse_quoted_fields (pre ++ String dquote rest)%string
  = _parse_quoted_fields pre ++ [replace_bs_quote rest].
Proof.
  intros Hpre Hrest. unfold _parse_quoted_fields.
  rewrite (proj1 (scan_app pre (String dquote rest)) Hpre).
  f_equal. simpl. rewrite (unclosed_inside rest Hrest). reflexivity.
Qed.

(** ** Dictionaries *)

Lemma get_set_eq {V : Type} (k : string) (v : V) (d : PyDict.dict V) :
  PyDict.get k (PyDict.set k v d) = Some v.
Proof.
  induction d as [|[k' v'] r IH]; simpl.
  - now rewrite String.eqb_refl.
  - destruct (String.eqb k k') eqn:E; simpl; rewrite E; auto.
Qed.

Lemma get_set_neq {V : Type} (k k' : string) (v : V) (d : PyDict.dict V) :
  k <> k' -> PyDict.get k (PyDict.set k' v d) = PyDict.get k d.
Proof.
  intros N. induction d as [|[k0 v0] r IH]; simpl.
  - apply String.eqb_neq in N. now rewrite N.
  - destruct (String.eqb k' k0) eqn:E; simpl.
    + apply String.eqb_eq in E. subst k0.
      apply String.eqb_neq in N. now rewrite N.
    + now rewrite IH.
Qed.

Lemma in_set {V : Type} (k a : string) (v x : V) (d : PyDict.dict V) :
  In (a, x) (PyDict.set k v d) -> (a = k /\ x = v) \/ In (a, x) d.
Proof.
  induction d as [|[k0 v0] r IH]; simpl.
  - intros [E|[]]. inversion E. auto.
  - destruct (String.eqb k k0) eqn:E; simpl.
    + apply String.eqb_eq in E. subst k0.
      intros [H|H]; [inversion H; auto | auto].
    + intros [H|H]; [auto | destruct (IH H); auto].
Qed.

Lemma in_keys_set {V : Type} (k a : string) (v : V) (d : PyDict.dict V) :
  In a (PyDict.keys (PyDict.set k v d)) -> a = k \/ In a (PyDict.keys d).
Proof.
  unfold PyDict.keys. induction d as [|[k0 v0] r IH]; simpl.
  - intros [E|[]]; auto.
  - destruct (String.eqb k k0) eqn:E; simpl.
    + intros [H|H]; auto.
    + intros [H|H]; [auto | destruct (IH H); auto].
Qed.

Lemma set_keys_nodup {V : Type} (k : string) (v : V) (d : PyDict.dict V) :
  NoDup (PyDict.keys d) -> NoDup (PyDict.keys (PyDict.set k v d)).
Proof.
  unfold PyDict.keys. induction d as [|[k0 v0] r IH]; simpl; intros H.
  - constructor; [intros [] | constructor].
  - inversion H as [|? ? Hn Hr]; subst.
    destruct (String.eqb k k0) eqn:E; simpl.
    + constructor; assumption.
    + constructor; [|auto].
      intros Hin. destruct (in_keys_set _ _ _ _ Hin) as [->|Hin'].
      * now rewrite String.eqb_refl in E.
      * contradiction.
Qed.

Lemma get_not_in {V : Type} (k : string) (d : PyDict.dict V) :
  ~ In k (PyDict.keys d) -> PyDict.get k d = None.
Proof.
  unfold PyDict.keys. induction d as [|[k0 v0] r IH]; simpl; intros H; auto.
  destruct (String.eqb k k0) eqn:E.
  - apply String.eqb_eq in E. subst. tauto.
  - apply IH. tauto.
Qed.

Lemma get_in {V : Type} (k : string) (v : V) (d : PyDict.dict V) :
  PyDict.get k d = Some v -> In (k, v) d.
Proof.
  induction d as [|[k0 v0] r IH]; simpl; [discriminate|].
  destruct (String.eqb k k0) eqn:E.
  - apply String.eqb_eq in E. subst. intros H. inversion H. auto.
  - auto.
Qed.

(** A dictionary filled by assignments from the empty one has unique keys. *)
Lemma fold_set_nodup {V A : Type} (f : PyDict.dict V -> A -> PyDict.dict V)
  (l : list A) (d : PyDict.dict V) :
  (forall d a, NoDup (PyDict.keys d) -> NoDup (PyDict.keys (f d a))) ->
  NoDup (PyDict.keys d) -> NoDup (PyDict.keys (fold_left f l d)).
Proof.
  intros Hf. revert d. induction l as [|a l IH]; simpl; auto.
Qed.

(** ** Strings, continued *)

Lemma or_else_empty_r (s : string) : or_else s "" = s.
Proof. destruct s; reflexivity. Qed.

Lemma startswith_drop (p s : string) :
  startswith p s = true -> (p ++ drop (String.length p) s)%string = s.
Proof.
  unfold startswith. revert s.
  induction p as [|c p IH]; intros [|d s]; simpl; try discriminate; auto.
  destruct (Ascii.ascii_dec c d) as [->|]; [|discriminate].
  intros H. f_equal. auto.
Qed.

Lemma startswith_append (p s : string) : startswith p (p ++ s)%string = true.
Proof.
  unfold startswith. induction p as [|c p IH]; simpl.
  - destruct s; reflexivity.
  - destruct (Ascii.ascii_dec c c); [assumption | congruence].
Qed.

Lemma drop_append (p s : string) : drop (String.length p) (p ++ s)%string = s.
Proof. induction p; simpl; auto. Qed.

Lemma append_inj_l (p a b : string) : (p ++ a)%string = (p ++ b)%string -> a = b.
Proof. induction p; simpl; intros H; [assumption | inversion H; auto]. Qed.

Lemma lstrip_empty_all (p : ascii -> bool) (s : string) :
  lstrip_by p s = "" -> forall c, mem_char c s = true -> p c = true.
Proof.
  induction s as [|d r IH]; simpl; intros H c Hc; [discriminate|].
  destruct (p d) eqn:Pd; [|discriminate].
  apply orb_true_iff in Hc. destruct Hc as [Hc|Hc]; [|auto].
  apply Ascii.eqb_eq in Hc. now subst.
Qed.

Lemma lstrip_head (p : ascii -> bool) (s : string) :
  match lstrip_by p s with
  | String c _ => p c = false
  | EmptyString => True
  end.
Proof.
  induction s as [|d r IH]; simpl; auto.
  destruct (p d) eqn:Pd; auto.
Qed.

Lemma rstrip_head (p : ascii -> bool) (c : ascii) (r : string) :
  p c = false -> rstrip_by p (String c r) = String c (rstrip_by p r).
Proof. intros H. simpl. now rewrite H. Qed.

Lemma strip_empty_all (s : string) :
  strip s = "" -> forall c, mem_char c s = true -> isspace c = true.
Proof.
  unfold strip. intros H.
  pose proof (lstrip_head isspace s) as Hh.
  destruct (lstrip_by isspace s) as [|c r] eqn:E.
  - now apply lstrip_empty_all.
  - rewrite (rstrip_head _ _ _ Hh) in H. discriminate.
Qed.

Lemma split_absent (sep : ascii) (s : string) :
  mem_char sep s = false -> split sep s = [s].
Proof.
  induction s as [|d r IH]; simpl; intros H; [reflexivity|].
  apply orb_false_iff in H. destruct H as [H1 H2].
  rewrite Ascii.eqb_sym, H1, (IH H2). reflexivity.
Qed.

Lemma partition_absent (sep : ascii) (s : string) :
  mem_char sep s = false -> partition sep s = (s, false, "").
Proof.
  induction s as [|d r IH]; simpl; intros H; [reflexivity|].
  apply orb_false_iff in H. destruct H as [H1 H2].
  rewrite Ascii.eqb_sym, H1, (IH H2). reflexivity.
Qed.

Lemma replace_absent (a b : ascii) (s : string) :
  mem_char a s = false -> replace_char a b s = s.
Proof.
  induction s as [|d r IH]; simpl; intros H; [reflexivity|].
  apply orb_false_iff in H. destruct H as [H1 H2].
  rewrite Ascii.eqb_sym, H1, (IH H2). reflexivity.
Qed.

(** A character that is not whitespace does not occur in a blank string. *)
Lemma blank_absent (s : string) (c : ascii) :
  strip s = "" -> isspace c = false -> mem_char c s = false.
Proof.
  intros Hs Hc. destruct (mem_char c s) eqn:E; [|reflexivity].
  rewrite (strip_empty_all s Hs c E) in Hc. discriminate.
Qed.

Lemma mem_char_append (c : ascii) (a b : string) :
  mem_char c (a ++ b)%string = mem_char c a || mem_char c b.
Proof.
  induction a as [|d r IH]; simpl; [reflexivity|].
  now rewrite IH, orb_assoc.
Qed.

(** ** The metrics extractor *)

Section Extractor.

Variable pct_decode : string -> string.

(** A blank query string has one parameter at most, named by the string. *)
Lemma parse_qs_blank (qs : string) :
  strip qs = "" ->
  parse_qs pct_decode qs = [] \/ parse_qs pct_decode qs = [(qs, [""])].
Proof.
  intros Hb. unfold parse_qs, parse_qsl.
  destruct qs as [|c r] eqn:E; [left; reflexivity|]. right.
  rewrite <- E in *. replace (is_empty qs) with false by (subst; reflexivity).
  rewrite split_absent by (apply blank_absent; auto).
  cbn [flat_map]. replace (is_empty qs) with false by (subst; reflexivity).
  rewrite partition_absent by (apply blank_absent; auto).
  rewrite replace_absent by (apply blank_absent; auto).
  unfold unquote, contains.
  rewrite (blank_absent qs "%" Hb eq_refl). reflexivity.
Qed.

Lemma parse_qs_nodup (qs : string) :
  NoDup (PyDict.keys (parse_qs pct_decode qs)).
Proof.
  unfold parse_qs. apply fold_set_nodup; [|constructor].
  intros d [name value] H.
  destruct (PyDict.get name d); now apply set_keys_nodup.
Qed.

(** A query string that supplies a prefixed parameter is not blank. *)
Lemma prefixed_not_blank (qs k : string) (vs : list string) :
  PyDict.get ("cmcd." ++ k)%string (parse_qs pct_decode qs) = Some vs ->
  is_empty qs || is_empty (strip qs) = false.
Proof.
  intros H.
  destruct (is_empty qs || is_empty (strip qs)) eqn:E; [|reflexivity].
  assert (Hb : strip qs = "").
  { apply orb_true_iff in E. destruct E as [E|E].
    - destruct qs; [reflexivity | discriminate].
    - destruct (strip qs); [reflexivity | discriminate]. }
  destruct (parse_qs_blank qs Hb) as [P|P]; rewrite P in H;
    cbn [PyDict.get] in H.
  - discriminate.
  - destruct (String.eqb ("cmcd." ++ k) qs) eqn:Eq; [|discriminate].
    apply String.eqb_eq in Eq.
    assert (F : isspace "c" = true).
    { apply (strip_empty_all _ Hb). rewrite <- Eq. reflexivity. }
    discriminate.
Qed.

(** The second pass leaves the entry of a key it does not assign. *)
Lemma add_prefixed_other (out : PyDict.dict string) (key k : string)
  (values : list string) :
  key <> ("cmcd." ++ k)%string ->
  PyDict.get ("cmcd." ++ k)%string (add_prefixed out (key, values))
  = PyDict.get ("cmcd." ++ k)%string out.
Proof.
  intros N. unfold add_prefixed.
  destruct values as [|v0 vs]; [reflexivity|].
  destruct (startswith "cmcd." key) eqn:S; [|reflexivity].
  destruct (is_empty (drop 5 key)); [reflexivity|].
  apply get_set_neq. intros E. apply N.
  rewrite E. symmetry. apply (startswith_drop "cmcd." key S).
Qed.

Lemma fold_prefixed_other (params : PyDict.dict (list string))
  (out : PyDict.dict string) (k : string) :
  ~ In ("cmcd." ++ k)%string (PyDict.keys params) ->
  PyDict.get ("cmcd." ++ k)%string (fold_left add_prefixed params out)
  = PyDict.get ("cmcd." ++ k)%string out.
Proof.
  revert out. induction params as [|[key values] r IH]; intros out H.
  - reflexivity.
  - cbn [fold_left]. rewrite IH by (simpl in H; tauto).
    apply add_prefixed_other. simpl in H. intros E. apply H. left. exact E.
Qed.

Lemma fold_prefixed_assigns (params : PyDict.dict (list string))
  (out : PyDict.dict string) (k v0 : string) (vs : list string) :
  k <> "" ->
  NoDup (PyDict.keys params) ->
  PyDict.get ("cmcd." ++ k)%string params = Some (v0 :: vs) ->
  PyDict.get ("cmcd." ++ k)%string (fold_left add_prefixed params out)
  = Some (_clean v0).
Proof.
  intros Hk. revert out.
  induction params as [|[key values] r IH]; intros out Hn Hg.
  - discriminate.
  - inversion Hn as [|? ? Hnot Hr]; subst.
    cbn [fold_left]. cbn [PyDict.get] in Hg.
    destruct (String.eqb ("cmcd." ++ k) key) eqn:E.
    + apply String.eqb_eq in E. subst key. inversion Hg; subst values.
      rewrite fold_prefixed_other by exact Hnot.
      unfold add_prefixed.
      rewrite (startswith_append "cmcd." k).
      change 5 with (String.length "cmcd."). rewrite drop_append.
      destruct k as [|c k']; [congruence|]. cbn [is_empty].
      rewrite get_set_eq, or_else_empty_r. reflexivity.
    + apply IH; assumption.
Qed.

End Extractor.

(** ** The decoder *)

Lemma fold_left_invariant {A B : Type} (P : A -> Prop) (f : A -> B -> A)
  (l : list B) (a : A) :
  (forall a b, In b l -> P a -> P (f a b)) -> P a -> P (fold_left f l a).
Proof.
  revert a. induction l as [|b l IH]; simpl; intros a Hf Ha; [exact Ha|].
  apply IH; auto.
Qed.

Lemma find_ext_in {A : Type} (p q : A -> bool) (l : list A) :
  Forall (fun x => p x = q x) l -> find p l = find q l.
Proof.
  induction 1 as [|x l Hx _ IH]; simpl; [reflexivity|].
  now rewrite Hx, IH.
Qed.

Lemma find_request_field_spec (fields : list string) :
  _find_request_field fields
  = match find (fun f => looks_like_request (strip f)) fields with
    | Some f => strip f
    | None => ""
    end.
Proof.
  induction fields as [|f rest IH]; simpl; [reflexivity|].
  rewrite or_else_empty_r.
  destruct (looks_like_request (strip f)); auto.
Qed.

Lemma find_cmcd_raw_field_spec (fields : list string) :
  _find_cmcd_raw_field fields
  = match find (fun f => has_cmcd_marker (strip f)) fields with
    | Some f => strip f
    | None => ""
    end.
Proof.
  induction fields as [|f rest IH]; simpl; [reflexivity|].
  rewrite or_else_empty_r. unfold has_cmcd_marker at 1.
  destruct (startswith "CMCD=" (strip f) || startswith "cmcd=" (strip f)); auto.
Qed.

Lemma looks_like_request_nonempty (s : string) :
  looks_like_request s = true -> is_empty s = false.
Proof. destruct s; [discriminate | reflexivity]. Qed.

Lemma has_cmcd_marker_nonempty (s : string) :
  has_cmcd_marker s = true -> is_empty s = false.
Proof. destruct s; [discriminate | reflexivity]. Qed.

Lemma fields_nonempty_line (l : string) :
  1 <= List.length (_parse_quoted_fields l) -> is_empty l = false.
Proof. destruct l; simpl; [lia | reflexivity]. Qed.

Section Record_of_line.

Variable pct_decode : string -> string.

(** What a returned record holds, in terms of the fields of the trimmed
    line. *)
Lemma parse_some (line : string) (r : ParsedCDNLog) :
  parse_gcore_log_line pct_decode line = Some r ->
  let fields := _parse_quoted_fields (strip line) in
  strip line <> ""
  /\ 10 <= List.length fields
  /\ raw r = strip line
  /\ time_local r = _strip_brackets (get fields 3 "")
  /\ request r = or_else (_find_request_field fields) (get fields 4 "")
  /\ (method r, path r) = parse_request (request r)
  /\ attributes r
     = merge_cmcd (column_attrs fields) (cmcd_of pct_decode fields (path r)).
Proof.
  intros H fields. unfold parse_gcore_log_line in H.
  destruct (is_empty (strip line)) eqn:E; [discriminate|].
  change (_parse_quoted_fields (strip line)) with fields in H.
  destruct (List.length fields <? 10)%nat eqn:L; [discriminate|].
  apply Nat.ltb_ge in L.
  destruct (parse_request
              (or_else (_find_request_field fields) (get fields 4 "")))
    as [m p] eqn:R.
  injection H as <-.
  cbn [raw time_local request method path attributes].
  repeat split; auto.
  intros Z. rewrite Z in E. discriminate.
Qed.

(** A line whose trimmed text yields ten fields or more gives a record. *)
Lemma parse_returns (line : string) :
  10 <= List.length (_parse_quoted_fields (strip line)) ->
  exists r, parse_gcore_log_line pct_decode line = Some r.
Proof.
  intros L. unfold parse_gcore_log_line.
  rewrite fields_nonempty_line by lia.
  replace (_ <? 10)%nat with false by (symmetry; apply Nat.ltb_ge; lia).
  destruct (parse_request _) as [m p]. eexists. reflexivity.
Qed.

End Record_of_line.

(** ** Trimming a line does not change how many fields it has *)

Lemma isspace_plain (c : ascii) :
  isspace c = true -> Ascii.eqb c dquote = false /\ Ascii.eqb c backslash = false.
Proof.
  intros H. split.
  - destruct (Ascii.eqb c dquote) eqn:E; [|reflexivity].
    apply Ascii.eqb_eq in E. subst c. discriminate.
  - destruct (Ascii.eqb c backslash) eqn:E; [|reflexivity].
    apply Ascii.eqb_eq in E. subst c. discriminate.
Qed.

Lemma outside_lstrip (s : string) : outside (lstrip_by isspace s) = outside s.
Proof.
  induction s as [|c r IH]; [reflexivity|].
  cbn [lstrip_by]. destruct (isspace c) eqn:W; [|reflexivity].
  rewrite IH. simpl. now rewrite (proj1 (isspace_plain c W)).
Qed.

Lemma outside_length_cons (c : ascii) (r : string) :
  List.length (outside (String c r))
  = if Ascii.eqb c dquote then S (List.length (snd (inside r)))
    else List.length (outside r).
Proof.
  simpl. destruct (Ascii.eqb c dquote); [|reflexivity].
  destruct (inside r); reflexivity.
Qed.

Lemma inside_length_cons (c : ascii) (r : string) :
  List.length (snd (inside (String c r)))
  = if Ascii.eqb c dquote then List.length (outside r)
    else if Ascii.eqb c backslash then List.length (snd (inside (drop 1 r)))
    else List.length (snd (inside r)).
Proof.
  destruct r as [|d r']; simpl.
  - destruct (Ascii.eqb c dquote), (Ascii.eqb c backslash); reflexivity.
  - destruct (Ascii.eqb c dquote); [reflexivity|].
    destruct (Ascii.eqb c backslash).
    + destruct (inside r'); reflexivity.
    + destruct (Ascii.eqb d dquote); [reflexivity|].
      destruct (Ascii.eqb d backslash).
      * destruct r' as [|e r'']; [reflexivity|].
        destruct (inside r''); reflexivity.
      * destruct (inside r'); reflexivity.
Qed.

Lemma rstrip_cons (p : ascii -> bool) (c : ascii) (r : string) :
  rstrip_by p (String c r)
  = if p c && is_empty (rstrip_by p r) then "" else String c (rstrip_by p r).
Proof. reflexivity. Qed.

Lemma is_empty_true (s : string) : is_empty s = true -> s = "".
Proof. destruct s; [reflexivity | discriminate]. Qed.

Lemma field_count_rstrip (n : nat) (s : string) :
  String.length s <= n ->
  List.length (outside (rstrip_by isspace s)) = List.length (outside s)
  /\ List.length (snd (inside (rstrip_by isspace s)))
     = List.length (snd (inside s)).
Proof.
  revert s. induction n as [|n IH]; intros [|c r] L; simpl in L;
    try lia; try (split; reflexivity).
  assert (Lr : String.length r <= n) by lia.
  destruct (IH r Lr) as [IHo IHi].
  rewrite rstrip_cons.
  destruct (isspace c && is_empty (rstrip_by isspace r)) eqn:B.
  - apply andb_true_iff in B. destruct B as [W Z].
    apply is_empty_true in Z. rewrite Z in IHo, IHi.
    destruct (isspace_plain c W) as [Nq Nb].
    rewrite outside_length_cons, inside_length_cons, Nq, Nb.
    split; assumption.
  - rewrite !outside_length_cons, !inside_length_cons.
    destruct (Ascii.eqb c dquote); [split; congruence|].
    split; [assumption|].
    destruct (Ascii.eqb c backslash); [|assumption].
    destruct r as [|d r']; [reflexivity|].
    simpl in Lr. assert (Lr' : String.length r' <= n) by lia.
    assert (Lr'' : String.length r' <= S n) by lia.
    rewrite rstrip_cons.
    destruct (isspace d && is_empty (rstrip_by isspace r')) eqn:B'.
    + apply andb_true_iff in B'. destruct B' as [W Z].
      apply is_empty_true in Z.
      destruct n as [|n']; [lia|].
      assert (L2 : String.length r' <= n') by lia.
      cbn [drop].
      rewrite rstrip_cons, W, Z in IHi. cbn [andb is_empty] in IHi.
      rewrite inside_length_cons in IHi.
      destruct (isspace_plain d W) as [Nq Nb]. rewrite Nq, Nb in IHi.
      exact IHi.
    + cbn [drop].
      destruct n as [|n']; [lia|].
      assert (L2 : String.length r' <= n') by lia.
      assert (L3 : String.length r' <= S n') by lia.
      clear IHo IHi.
      destruct (IH r' L3) as [_ H]. exact H.
Qed.

Lemma field_count_strip (s : string) :
  List.length (_parse_quoted_fields (strip s))
  = List.length (_parse_quoted_fields s).
Proof.
  unfold _parse_quoted_fields, strip.
  rewrite (proj1 (field_count_rstrip _ _ (le_n _))).
  now rewrite outside_lstrip.
Qed.

(** ** The request shape tested by the code *)

Lemma rstrip_nonempty (c : ascii) (t : string) :
  mem_char c t = true -> isspace c = false ->
  is_empty (rstrip_by isspace t) = false.
Proof.
  intros Hm Hc. induction t as [|d r IH]; [discriminate|].
  rewrite rstrip_cons. simpl in Hm.
  apply orb_true_iff in Hm. destruct Hm as [E|Hm].
  - apply Ascii.eqb_eq in E. subst d. rewrite Hc. reflexivity.
  - rewrite (IH Hm), andb_false_r. reflexivity.
Qed.

(** Apart from an [OPTIONS] token without a protocol, the code's test is the
    shape: a known method, a space, and a remainder with a slash and, once
    trimmed, a space character. *)
Lemma looks_like_request_shape (s : string) :
  options_without_protocol s = false ->
  looks_like_request s = shaped_by_space s.
Proof.
  intros Ho.
  unfold looks_like_request, starts_with_method, shaped_by_space,
    options_without_protocol, remainder_after in *.
  cbn [HTTP_METHODS existsb append String.length] in *.
  destruct (startswith "GET " s) eqn:G.
  { pose proof (startswith_drop _ _ G) as E. cbn [String.length] in E.
    remember (drop 4 s) as t eqn:Ht. clear Ht. subst s. clear.
    simpl. unfold contains.
    destruct (mem_char "/" t), (mem_char " " (strip t)); reflexivity. }
  destruct (startswith "POST " s) eqn:P.
  { pose proof (startswith_drop _ _ P) as E. cbn [String.length] in E.
    remember (drop 5 s) as t eqn:Ht. clear Ht. subst s. clear.
    simpl. unfold contains.
    change (strip (String " " t)) with (strip t).
    destruct (mem_char "/" t), (mem_char " " (strip t)); reflexivity. }
  destruct (startswith "HEAD " s) eqn:H.
  { pose proof (startswith_drop _ _ H) as E. cbn [String.length] in E.
    remember (drop 5 s) as t eqn:Ht. clear Ht. subst s. clear.
    simpl. unfold contains.
    change (strip (String " " t)) with (strip t).
    destruct (mem_char "/" t), (mem_char " " (strip t)); reflexivity. }
  destruct (startswith "PUT " s) eqn:U.
  { pose proof (startswith_drop _ _ U) as E. cbn [String.length] in E.
    remember (drop 4 s) as t eqn:Ht. clear Ht. subst s. clear.
    simpl. unfold contains.
    destruct (mem_char "/" t), (mem_char " " (strip t)); reflexivity. }
  destruct (startswith "OPTIONS " s) eqn:O; [|reflexivity].
  pose proof (startswith_drop _ _ O) as E. cbn [String.length] in E.
  remember (drop 8 s) as t eqn:Ht. clear Ht. subst s. clear - Ho.
  simpl in *. unfold contains in *.
  destruct (mem_char "/" t) eqn:Sl.
  - simpl in Ho. apply negb_false_iff in Ho. rewrite Ho.
    rewrite (rstrip_nonempty "/" t Sl eq_refl). reflexivity.
  - rewrite andb_false_r. reflexivity.
Qed.

(** On an [OPTIONS] token without a protocol the two differ: the code looks
    for the space in the text after the first four characters, which for
    this method still holds the space that follows the method name. *)
Lemma options_offset_example :
  looks_like_request "OPTIONS /x" = true
  /\ shaped_by_space "OPTIONS /x" = false
  /\ strip (drop 4 "OPTIONS /x") = "ONS /x".
Proof. repeat split. Qed.

(** ** The attribute mapping *)

Lemma nodupb_sound (l : list string) : nodupb l = true -> NoDup l.
Proof.
  induction l as [|x r IH]; simpl; intros H; [constructor|].
  apply andb_true_iff in H. destruct H as [Hx Hr].
  constructor; [|auto].
  intros Hin. apply negb_true_iff in Hx.
  assert (E : existsb (String.eqb x) r = true).
  { apply existsb_exists. exists x. split; [exact Hin | apply String.eqb_refl]. }
  congruence.
Qed.

Lemma field_names_nodup : NoDup FIELD_NAMES.
Proof. apply nodupb_sound. vm_compute. reflexivity. Qed.

Lemma enumerate_snd {A : Type} (l : list A) (s : nat) :
  map snd (combine (seq s (List.length l)) l) = l.
Proof.
  revert s. induction l as [|x l IH]; intros s; simpl; [reflexivity|].
  now rewrite IH.
Qed.

Lemma enumerate_in {A : Type} (l : list A) (s idx : nat) (x : A) :
  nth_error l idx = Some x -> In (s + idx, x) (combine (seq s (List.length l)) l).
Proof.
  revert s idx. induction l as [|y l IH]; intros s [|idx] H; simpl in *;
    try discriminate.
  - left. inversion H. f_equal. lia.
  - right. replace (s + S idx) with (S s + idx) by lia. now apply IH.
Qed.

Lemma or_else_dash (a : string) : or_else a "-" <> "".
Proof. destruct a; discriminate. Qed.

Section Columns.

Variable fields : list string.

Lemma column_step_other (attrs : PyDict.dict string) (idx : nat)
  (name name' : string) :
  name <> name' ->
  PyDict.get ("cdn." ++ name)%string (column_step fields attrs (idx, name'))
  = PyDict.get ("cdn." ++ name)%string attrs.
Proof.
  intros N. unfold column_step.
  destruct (startswith "_" name'); [reflexivity|].
  destruct (nth_error fields idx); [|reflexivity].
  apply get_set_neq. intros E. apply N. exact (append_inj_l _ _ _ E).
Qed.

Lemma column_fold_other (l : list (nat * string)) (attrs : PyDict.dict string)
  (name : string) :
  ~ In name (map snd l) ->
  PyDict.get ("cdn." ++ name)%string (fold_left (column_step fields) l attrs)
  = PyDict.get ("cdn." ++ name)%string attrs.
Proof.
  revert attrs. induction l as [|[i n] l IH]; intros attrs H; [reflexivity|].
  cbn [fold_left]. simpl in H. rewrite IH by tauto.
  apply column_step_other. intros E. apply H. left. now symmetry.
Qed.

Lemma column_fold_get (l : list (nat * string)) (attrs : PyDict.dict string)
  (idx : nat) (name f : string) :
  NoDup (map snd l) ->
  In (idx, name) l ->
  startswith "_" name = false ->
  nth_error fields idx = Some f ->
  PyDict.get ("cdn." ++ name)%string (fold_left (column_step fields) l attrs)
  = Some (or_else (strip f) "-").
Proof.
  intros Hn Hin Hu Hf. revert attrs.
  induction l as [|[i n] l IH]; intros attrs; [destruct Hin|].
  simpl in Hn. inversion Hn as [|? ? Hnot Hn']; subst.
  cbn [fold_left]. destruct Hin as [E|Hin].
  - inversion E; subst i n. rewrite column_fold_other by exact Hnot.
    unfold column_step. rewrite Hu, Hf. apply get_set_eq.
  - apply IH; assumption.
Qed.

(** A present column: the token trimmed, or a dash when that is empty. *)
Lemma column_get (idx : nat) (name f : string) :
  nth_error FIELD_NAMES idx = Some name ->
  startswith "_" name = false ->
  nth_error fields idx = Some f ->
  PyDict.get ("cdn." ++ name)%string (column_attrs fields)
  = Some (or_else (strip f) "-").
Proof.
  intros Hname Hu Hf. unfold column_attrs.
  apply column_fold_get with (idx := idx); auto.
  - rewrite enumerate_snd. exact field_names_nodup.
  - exact (enumerate_in FIELD_NAMES 0 idx name Hname).
Qed.

Lemma column_step_values (attrs : PyDict.dict string) (item : nat * string) :
  (forall k v, In (k, v) attrs -> v <> "") ->
  forall k v, In (k, v) (column_step fields attrs item) -> v <> "".
Proof.
  intros H k v. destruct item as [i n]. unfold column_step.
  destruct (startswith "_" n); [apply H|].
  destruct (nth_error fields i); [|apply H].
  intros Hin. destruct (in_set _ _ _ _ _ Hin) as [[_ ->]|Hin'].
  - apply or_else_dash.
  - exact (H k v Hin').
Qed.

Lemma column_attrs_values (k v : string) :
  In (k, v) (column_attrs fields) -> v <> "".
Proof.
  revert k v. unfold column_attrs.
  apply (fold_left_invariant (fun d => forall k v, In (k, v) d -> v <> "")).
  - intros a b _. apply column_step_values.
  - intros k v [].
Qed.

Lemma column_step_keys (attrs : PyDict.dict string) (item : nat * string) :
  (forall k, In k (PyDict.keys attrs) -> startswith "cdn." k = true) ->
  forall k, In k (PyDict.keys (column_step fields attrs item)) ->
            startswith "cdn." k = true.
Proof.
  intros H k. destruct item as [i n]. unfold column_step.
  destruct (startswith "_" n); [apply H|].
  destruct (nth_error fields i); [|apply H].
  intros Hin. destruct (in_keys_set _ _ _ _ Hin) as [->|Hin'].
  - apply startswith_append.
  - exact (H k Hin').
Qed.

Lemma column_attrs_keys (k : string) :
  In k (PyDict.keys (column_attrs fields)) -> startswith "cdn." k = true.
Proof.
  revert k. unfold column_attrs.
  apply (fold_left_invariant
           (fun d => forall k, In k (PyDict.keys d) -> startswith "cdn." k = true)).
  - intros a b _. apply column_step_keys.
  - intros k [].
Qed.

End Columns.

(** ** Merging the metrics *)

Lemma merge_get_other (cm attrs : PyDict.dict string) (k : string) :
  ~ In k (PyDict.keys cm) ->
  PyDict.get k (merge_cmcd attrs cm) = PyDict.get k attrs.
Proof.
  unfold merge_cmcd. revert attrs.
  induction cm as [|[k0 v0] cm IH]; intros attrs H; [reflexivity|].
  cbn [fold_left]. simpl in H. rewrite IH by tauto.
  unfold merge_step. destruct (is_empty v0); [reflexivity|].
  apply get_set_neq. intros E. apply H. left. now symmetry.
Qed.

Lemma merge_get (cm attrs : PyDict.dict string) (k v : string) :
  NoDup (PyDict.keys cm) ->
  PyDict.get k cm = Some v ->
  PyDict.get k (merge_cmcd attrs cm)
  = if is_empty v then PyDict.get k attrs else Some v.
Proof.
  revert attrs. induction cm as [|[k0 v0] cm IH]; intros attrs Hn Hg.
  - discriminate.
  - simpl in Hn. inversion Hn as [|? ? Hnot Hn']; subst.
    cbn [PyDict.get] in Hg.
    destruct (String.eqb k k0) eqn:E.
    + apply String.eqb_eq in E. subst k0. inversion Hg; subst v0.
      change (merge_cmcd attrs ((k, v) :: cm))
        with (merge_cmcd (merge_step attrs (k, v)) cm).
      rewrite merge_get_other by exact Hnot.
      unfold merge_step. destruct (is_empty v); [reflexivity|].
      apply get_set_eq.
    + change (merge_cmcd attrs ((k0, v0) :: cm))
        with (merge_cmcd (merge_step attrs (k0, v0)) cm).
      rewrite (IH _ Hn' Hg).
      destruct (is_empty v); [|reflexivity].
      unfold merge_step. destruct (is_empty v0); [reflexivity|].
      apply get_set_neq. intros F. subst k0.
      now rewrite String.eqb_refl in E.
Qed.

Lemma merge_values (cm attrs : PyDict.dict string) :
  (forall k v, In (k, v) attrs -> v <> "") ->
  forall k v, In (k, v) (merge_cmcd attrs cm) -> v <> "".
Proof.
  unfold merge_cmcd.
  apply (fold_left_invariant (fun d => forall k v, In (k, v) d -> v <> "")).
  intros a [k0 v0] _ H k v. unfold merge_step.
  destruct (is_empty v0) eqn:E; [apply H|].
  intros Hin. destruct (in_set _ _ _ _ _ Hin) as [[_ ->]|Hin'].
  - intros Z. subst v0. discriminate.
  - exact (H k v Hin').
Qed.

Lemma metrics_keys_nil : metrics_keys [].
Proof. split; [constructor | intros k []]. Qed.

Lemma metrics_keys_set (d : PyDict.dict string) (k v : string) :
  metrics_keys d -> metrics_keys (PyDict.set ("cmcd." ++ k) v d).
Proof.
  intros [Hn Hk]. split; [now apply set_keys_nodup|].
  intros k' Hin. destruct (in_keys_set _ _ _ _ Hin) as [->|Hin'].
  - apply startswith_append.
  - exact (Hk k' Hin').
Qed.

Section Metrics.

Variable pct_decode : string -> string.

Lemma add_pair_keys (out : PyDict.dict string) (pair : string) :
  metrics_keys out -> metrics_keys (add_pair out pair).
Proof.
  intros H. unfold add_pair.
  destruct (contains "=" (strip pair)); [|exact H].
  destruct (partition "=" (strip pair)) as [[k f] v].
  destruct (is_empty (strip k)); [exact H|].
  now apply metrics_keys_set.
Qed.

Lemma add_prefixed_keys (out : PyDict.dict string)
  (item : string * list string) :
  metrics_keys out -> metrics_keys (add_prefixed out item).
Proof.
  intros H. destruct item as [key values]. unfold add_prefixed.
  destruct values as [|v0 vs]; [exact H|].
  destruct (startswith "cmcd." key); [|exact H].
  destruct (is_empty (drop 5 key)); [exact H|].
  now apply metrics_keys_set.
Qed.

Lemma extractor_keys (qs : string) :
  metrics_keys (parse_cmcd_from_query_string pct_decode qs).
Proof.
  unfold parse_cmcd_from_query_string.
  destruct (is_empty qs || is_empty (strip qs)); [apply metrics_keys_nil|].
  apply fold_left_invariant.
  - intros a b _. apply add_prefixed_keys.
  - apply fold_left_invariant; [|apply metrics_keys_nil].
    intros a raw _ Ha. apply fold_left_invariant; [|exact Ha].
    intros a' pair _. apply add_pair_keys.
Qed.

Lemma path_extractor_keys (path_with_query : string) :
  metrics_keys (parse_cmcd_from_path pct_decode path_with_query).
Proof.
  unfold parse_cmcd_from_path.
  destruct (is_empty path_with_query); [apply metrics_keys_nil|].
  destruct (contains "?" path_with_query); [|apply metrics_keys_nil].
  destruct (partition "?" path_with_query) as [[a f] qs].
  apply extractor_keys.
Qed.

Lemma cmcd_of_keys (fields : list string) (p : string) :
  metrics_keys (cmcd_of pct_decode fields p).
Proof.
  unfold cmcd_of.
  pose proof (path_extractor_keys p) as H.
  destruct (parse_cmcd_from_path pct_decode p); [|exact H].
  destruct (is_empty (_find_cmcd_raw_field fields)); [exact H|].
  apply extractor_keys.
Qed.

End Metrics.

Lemma cdn_key_not_metrics (k : string) :
  startswith "cdn." k = true -> startswith "cmcd." k = true -> False.
Proof.
  intros H1 H2. pose proof (startswith_drop _ _ H1) as E.
  rewrite <- E in H2. discriminate.
Qed.

(** * The claims *)

(** C1.  A line whose trimmed text is empty, or whose tokenization (of the
    line as given or of its trimmed text, the count is the same) yields fewer
    than 10 fields, is not a record: [parse_gcore_log_line] returns [None],
    whatever the line holds. *)
Theorem C1_blank_or_short_line_is_not_a_record
  (pct_decode : string -> string) (line : string) :
  strip line = ""
  \/ List.length (_parse_quoted_fields line) < 10
  \/ List.length (_parse_quoted_fields (strip line)) < 10 ->
  parse_gcore_log_line pct_decode line = None.
Proof.
  intros H. unfold parse_gcore_log_line.
  destruct H as [H | H].
  - rewrite H. reflexivity.
  - assert (L : List.length (_parse_quoted_fields (strip line)) < 10)
      by (destruct H; [rewrite field_count_strip|]; assumption).
    destruct (is_empty (strip line)); [reflexivity|].
    apply Nat.ltb_lt in L. rewrite L. reflexivity.
Qed.

Lemma C1_witness :
  parse_gcore_log_line no_decoding (log_line ["a"; "b"; "c"]) = None.
Proof.
  apply C1_blank_or_short_line_is_not_a_record.
  right. left. vm_compute. lia.
Defined.

(** C2.  Take a line whose trimmed text tokenizes to exactly 12 fields, the
    4th being [[26/Apr/2019:09:47:40 +0000]] and the 5th
    [GET /vod/seg.m4s?cmcd=ot=v,br=3200 HTTP/1.1], and whose first three
    fields, trimmed, do not start with an HTTP method name and a space.  The
    decoder returns a record with that time without its brackets, method
    [GET], path [/vod/seg.m4s?cmcd=ot=v,br=3200], and attributes in which
    [cmcd.ot] is [v] and [cmcd.br] is [3200]. *)
Theorem C2_scenario
  (pct_decode : string -> string) (line : string)
  (f0 f1 f2 f5 f6 f7 f8 f9 f10 f11 : string) :
  _parse_quoted_fields (strip line)
  = [ f0; f1; f2; "[26/Apr/2019:09:47:40 +0000]";
      "GET /vod/seg.m4s?cmcd=ot=v,br=3200 HTTP/1.1";
      f5; f6; f7; f8; f9; f10; f11 ] ->
  starts_with_method (strip f0) = false ->
  starts_with_method (strip f1) = false ->
  starts_with_method (strip f2) = false ->
  exists r,
    parse_gcore_log_line pct_decode line = Some r
    /\ time_local r = "26/Apr/2019:09:47:40 +0000"
    /\ method r = "GET"
    /\ path r = "/vod/seg.m4s?cmcd=ot=v,br=3200"
    /\ PyDict.get "cmcd.ot" (attributes r) = Some "v"
    /\ PyDict.get "cmcd.br" (attributes r) = Some "3200".
Proof.
  intros Hf H0 H1 H2.
  destruct (parse_returns pct_decode line) as [r Hr];
    [rewrite Hf; simpl; lia|].
  exists r. split; [exact Hr|].
  destruct (parse_some pct_decode line r Hr) as (_ & _ & _ & T & Rq & MP & A).
  rewrite Hf in T, Rq, A.
  set (fields := [f0; f1; f2; _; _; f5; f6; f7; f8; f9; f10; f11]) in *.
  assert (F : _find_request_field fields
              = "GET /vod/seg.m4s?cmcd=ot=v,br=3200 HTTP/1.1").
  { unfold fields. cbn [_find_request_field].
    rewrite !or_else_empty_r. unfold looks_like_request at 1.
    rewrite H0. cbn [andb]. unfold looks_like_request at 1.
    rewrite H1. cbn [andb]. unfold looks_like_request at 1.
    rewrite H2. cbn [andb]. reflexivity. }
  rewrite F in Rq. change (or_else _ _) with
    "GET /vod/seg.m4s?cmcd=ot=v,br=3200 HTTP/1.1" in Rq.
  rewrite Rq in MP.
  change (parse_request _) with ("GET", "/vod/seg.m4s?cmcd=ot=v,br=3200") in MP.
  injection MP as M P. rewrite P in A.
  change (cmcd_of pct_decode fields _)
    with [("cmcd.ot", "v"); ("cmcd.br", "3200")] in A.
  change (merge_cmcd ?a _)
    with (PyDict.set "cmcd.br" "3200" (PyDict.set "cmcd.ot" "v" a)) in A.
  repeat split; try assumption.
  - rewrite A, get_set_neq by discriminate. apply get_set_eq.
  - rewrite A. apply get_set_eq.
Qed.

Lemma C2_witness :
  exists r,
    parse_gcore_log_line no_decoding sample_line = Some r
    /\ time_local r = "26/Apr/2019:09:47:40 +0000"
    /\ method r = "GET"
    /\ path r = "/vod/seg.m4s?cmcd=ot=v,br=3200"
    /\ PyDict.get "cmcd.ot" (attributes r) = Some "v"
    /\ PyDict.get "cmcd.br" (attributes r) = Some "3200".
Proof.
  apply (C2_scenario no_decoding sample_line
           "203.0.113.7" "-" "-" "200" "1024" "-" "Mozilla/5.0" "1300"
           "[edge-1]" "https"); reflexivity.
Defined.

(** C3, as amended.  Take a line whose trimmed text yields at least 10 fields,
    none of which, trimmed, is an [OPTIONS] token with a slash and no space
    in its trimmed remainder.  The decoder returns a record whose request is
    the first token, left to right, whose trimmed text begins with GET, POST,
    HEAD, PUT or OPTIONS and a space and whose remainder contains a slash and,
    once trimmed, a space character; method and path are the first two
    whitespace-separated parts of that trimmed token, not of the fifth one.
    When no token has the shape, request, method and path come from the
    trimmed fifth token. *)
Theorem C3_request_found_by_shape
  (pct_decode : string -> string) (line : string) :
  10 <= List.length (_parse_quoted_fields (strip line)) ->
  Forall (fun f => options_without_protocol (strip f) = false)
         (_parse_quoted_fields (strip line)) ->
  exists r,
    parse_gcore_log_line pct_decode line = Some r
    /\ request r = request_by_shape (_parse_quoted_fields (strip line))
    /\ (method r, path r)
       = parse_request (request_by_shape (_parse_quoted_fields (strip line))).
Proof.
  intros L Ho.
  destruct (parse_returns pct_decode line L) as [r Hr].
  exists r. split; [exact Hr|].
  destruct (parse_some pct_decode line r Hr) as (_ & _ & _ & _ & Rq & MP & _).
  set (fields := _parse_quoted_fields (strip line)) in *.
  assert (E : request r = request_by_shape fields).
  { rewrite Rq, find_request_field_spec. unfold request_by_shape.
    rewrite (find_ext_in (fun f => looks_like_request (strip f))
                         (fun f => shaped_by_space (strip f)) fields).
    - destruct (find (fun f => shaped_by_space (strip f)) fields)
        as [f|] eqn:F; [|reflexivity].
      apply find_some in F. destruct F as [Hin F].
      rewrite Forall_forall in Ho.
      rewrite <- (looks_like_request_shape _ (Ho f Hin)) in F.
      unfold or_else. now rewrite (looks_like_request_nonempty _ F).
    - revert Ho. apply Forall_impl. intros f.
      apply looks_like_request_shape. }
  split; [exact E|]. rewrite <- E. exact MP.
Qed.

Lemma C3_witness :
  exists r,
    parse_gcore_log_line no_decoding shifted_line = Some r
    /\ request r = "GET /x HTTP/1.1"
    /\ (method r, path r) = ("GET", "/x").
Proof.
  apply (C3_request_found_by_shape no_decoding shifted_line).
  - vm_compute. lia.
  - change (_parse_quoted_fields (strip shifted_line)) with shifted_fields.
    repeat constructor.
Defined.

(** C3 as stated fails: the first field of [tab_line] begins with [GET] and a
    space and its remainder holds a slash and a second word, set off by a tab;
    it is the first token with the shape as worded, and its method and path
    are [GET] and [/a].  The decoder passes it over, because the remainder
    holds no space character, and returns the path [/b] of the fifth field. *)
Lemma C3_counterexample :
  10 <= List.length (_parse_quoted_fields (strip tab_line))
  /\ find (fun f => shaped_by_words (strip f))
          (_parse_quoted_fields (strip tab_line))
     = Some tab_request
  /\ parse_request (strip tab_request) = ("GET", "/a")
  /\ exists r, parse_gcore_log_line no_decoding tab_line = Some r
               /\ method r = "GET" /\ path r = "/b".
Proof.
  split; [vm_compute; lia|]. split; [reflexivity|]. split; [reflexivity|].
  vm_compute. eexists. repeat split.
Qed.

(** C4.  On the query string [cmcd=br=3200,bl=12500&cmcd.ot=v] the metrics
    extractor returns exactly the three entries br = 3200, bl = 12500 and
    ot = v, under the keys [cmcd.br], [cmcd.bl] and [cmcd.ot]: the combined
    form and the prefixed form are both decoded and merged. *)
Theorem C4_dual_form_merge (pct_decode : string -> string) :
  parse_cmcd_from_query_string pct_decode "cmcd=br=3200,bl=12500&cmcd.ot=v"
  = [("cmcd.br", "3200"); ("cmcd.bl", "12500"); ("cmcd.ot", "v")].
Proof. reflexivity. Qed.

(** C5.  Whenever the prefixed form supplies a metrics key [k], that is, the
    parsed query has a parameter named [cmcd.k] whose first value is [v2], the
    extractor maps [cmcd.k] to [v2] (trimmed and unquoted as every extracted
    value is), whatever the combined form supplied for [k]: the prefixed pass
    runs second and its assignment stands. *)
Theorem C5_prefixed_form_wins
  (pct_decode : string -> string) (qs k v2 : string) (vs : list string) :
  k <> "" ->
  PyDict.get ("cmcd." ++ k)%string (parse_qs pct_decode qs) = Some (v2 :: vs) ->
  PyDict.get ("cmcd." ++ k)%string (parse_cmcd_from_query_string pct_decode qs)
  = Some (_clean v2).
Proof.
  intros Hk Hg. unfold parse_cmcd_from_query_string.
  rewrite (prefixed_not_blank pct_decode qs k _ Hg).
  apply fold_prefixed_assigns with (vs := vs); auto using parse_qs_nodup.
Qed.

Lemma C5_witness :
  parse_qs no_decoding "cmcd=br=1&cmcd.br=2"
  = [("cmcd", ["br=1"]); ("cmcd.br", ["2"])]
  /\ PyDict.get "cmcd.br"
       (parse_cmcd_from_query_string no_decoding "cmcd=br=1&cmcd.br=2")
     = Some "2".
Proof.
  split; [reflexivity|].
  apply (C5_prefixed_form_wins no_decoding "cmcd=br=1&cmcd.br=2" "br" "2" []).
  - discriminate.
  - reflexivity.
Defined.

(** C6, as amended.  The tokenizer returns on every input string: its loops
    neither index out of range nor run on.  On a line made of [pre], a double
    quote that opens a field, and a text [rest] without an unescaped double
    quote, it returns the fields of [pre] followed by one last field: [rest]
    with every backslash-quote pair replaced by a double quote. *)
Theorem C6_unterminated_field (pre rest : string) :
  opens_field_after pre ->
  no_closing_quote rest = true ->
  (forall line, Loop._parse_quoted_fields line = Some (_parse_quoted_fields line))
  /\ Loop._parse_quoted_fields (pre ++ String dquote rest)%string
     = Some (_parse_quoted_fields pre ++ [replace_bs_quote rest])
  /\ last (_parse_quoted_fields (pre ++ String dquote rest)%string) ""
     = replace_bs_quote rest.
Proof.
  intros Hpre Hrest. split; [exact loop_returns|].
  rewrite loop_returns, (unterminated_fields pre rest Hpre Hrest).
  split; [reflexivity | apply last_last].
Qed.

Lemma C6_witness :
  Loop._parse_quoted_fields (quoted "a" ++ " " ++ String dquote "b c")%string
  = Some ["a"; "b c"].
Proof.
  apply (C6_unterminated_field (quoted "a" ++ " ")%string "b c");
    reflexivity.
Defined.

(** C6 as stated fails: after the opening quote of the line made of a double
    quote and [escaped_rest] comes the text [a], backslash, double quote, [b],
    which holds no unescaped double quote; the only field returned is [a],
    double quote, [b], one character shorter than that text. *)
Lemma C6_counterexample :
  opens_field_after ""
  /\ no_closing_quote escaped_rest = true
  /\ Loop._parse_quoted_fields (String dquote escaped_rest)
     = Some [String "a" (String dquote "b")]
  /\ String "a" (String dquote "b") <> escaped_rest.
Proof. repeat split. discriminate. Qed.

(** C7, as amended.  When the decoder returns a record, its [raw] field, which
    the emitter sends as the body of the event, is the text of the line with
    leading and trailing whitespace removed. *)
Theorem C7_raw_is_the_trimmed_line
  (pct_decode : string -> string) (line : string) (r : ParsedCDNLog) :
  parse_gcore_log_line pct_decode line = Some r ->
  raw r = strip line /\ emitted_body r = strip line.
Proof.
  intros H. destruct (parse_some pct_decode line r H) as (_ & _ & R & _).
  split; exact R.
Qed.

Lemma C7_witness :
  exists r, parse_gcore_log_line no_decoding padded_line = Some r
            /\ raw r = sample_line /\ emitted_body r = sample_line.
Proof.
  destruct (parse_gcore_log_line no_decoding padded_line) as [r|] eqn:E;
    [|vm_compute in E; discriminate].
  exists r. split; [reflexivity|].
  exact (C7_raw_is_the_trimmed_line no_decoding padded_line r E).
Defined.

(** C7 as stated fails: the line [padded_line] begins and ends with a space;
    the decoder returns a record whose [raw], hence the emitted body, is
    [sample_line] and differs from the line. *)
Lemma C7_counterexample :
  exists r, parse_gcore_log_line no_decoding padded_line = Some r
            /\ emitted_body r = sample_line
            /\ emitted_body r <> padded_line.
Proof.
  vm_compute. eexists. split; [reflexivity|].
  split; [reflexivity | discriminate].
Qed.

(** C8, as amended.  When the path of a returned record yields no metrics
    keys, the decoder takes the first token, left to right, whose trimmed text
    starts with exactly [CMCD=] or exactly [cmcd=] (no other casing
    qualifies), feeds that trimmed text to the metrics extractor as a raw
    query string and merges the result; with no such token nothing is
    merged. *)
Theorem C8_raw_marker_field
  (pct_decode : string -> string) (line : string) (r : ParsedCDNLog) :
  parse_gcore_log_line pct_decode line = Some r ->
  parse_cmcd_from_path pct_decode (path r) = [] ->
  let fields := _parse_quoted_fields (strip line) in
  attributes r
  = merge_cmcd (column_attrs fields)
      match find (fun f => has_cmcd_marker (strip f)) fields with
      | Some f => parse_cmcd_from_query_string pct_decode (strip f)
      | None => []
      end.
Proof.
  intros H Hp fields.
  destruct (parse_some pct_decode line r H) as (_ & _ & _ & _ & _ & _ & A).
  fold fields in A. rewrite A. f_equal.
  unfold cmcd_of. rewrite Hp, find_cmcd_raw_field_spec.
  destruct (find (fun f => has_cmcd_marker (strip f)) fields) as [f|] eqn:F.
  - apply find_some in F. destruct F as [_ F].
    now rewrite (has_cmcd_marker_nonempty _ F).
  - reflexivity.
Qed.

Lemma C8_witness :
  exists r, parse_gcore_log_line no_decoding upper_case_line = Some r
            /\ PyDict.get "cmcd.br" (attributes r) = Some "3200".
Proof.
  destruct (parse_gcore_log_line no_decoding upper_case_line) as [r|] eqn:E;
    [|vm_compute in E; discriminate].
  exists r. split; [reflexivity|].
  rewrite (C8_raw_marker_field no_decoding upper_case_line r E).
  - reflexivity.
  - vm_compute in E. injection E as <-. reflexivity.
Defined.

(** C8 as stated fails: in [mixed_case_line] the path has no query, the last
    token is [Cmcd=br=3200], which begins with the marker when case is
    ignored, and the extractor applied to that token returns br = 3200; yet
    the record holds no [cmcd.br] attribute. *)
Lemma C8_counterexample :
  exists r, parse_gcore_log_line no_decoding mixed_case_line = Some r
            /\ parse_cmcd_from_path no_decoding (path r) = []
            /\ find (fun f => has_cmcd_marker_any_case (strip f))
                 (_parse_quoted_fields (strip mixed_case_line))
               = Some "Cmcd=br=3200"
            /\ parse_cmcd_from_query_string no_decoding "Cmcd=br=3200"
               = [("cmcd.br", "3200")]
            /\ PyDict.get "cmcd.br" (attributes r) = None.
Proof.
  vm_compute. eexists. split; [reflexivity|]. repeat split.
Qed.

(** C9.  In a returned record every attribute value is a non-empty string.
    Each column attribute, one per named column that the line has a token
    for, is that token trimmed, or a dash when the trimmed token is empty.  A
    metrics entry is merged only when its extracted value is non-empty: the
    attribute of a metrics key is its extracted value when that is non-empty
    and is absent when it is empty. *)
Theorem C9_attribute_values_are_non_empty
  (pct_decode : string -> string) (line : string) (r : ParsedCDNLog) :
  parse_gcore_log_line pct_decode line = Some r ->
  (forall k v, In (k, v) (attributes r) -> v <> "")
  /\ (forall idx name f,
        nth_error FIELD_NAMES idx = Some name ->
        startswith "_" name = false ->
        nth_error (_parse_quoted_fields (strip line)) idx = Some f ->
        PyDict.get ("cdn." ++ name)%string (attributes r)
        = Some (or_else (strip f) "-"))
  /\ (forall k v,
        PyDict.get k (cmcd_of pct_decode (_parse_quoted_fields (strip line))
                        (path r))
        = Some v ->
        PyDict.get k (attributes r) = if is_empty v then None else Some v).
Proof.
  intros H.
  destruct (parse_some pct_decode line r H) as (_ & _ & _ & _ & _ & _ & A).
  set (fields := _parse_quoted_fields (strip line)) in *.
  destruct (cmcd_of_keys pct_decode fields (path r)) as [Hn Hk].
  rewrite A. repeat split.
  - apply merge_values. apply column_attrs_values.
  - intros idx name f Hname Hu Hf.
    rewrite merge_get_other.
    + now apply column_get with (idx := idx).
    + intros Hin. apply Hk in Hin. discriminate.
  - intros k v Hg. rewrite (merge_get _ _ k v Hn Hg).
    destruct (is_empty v); [|reflexivity].
    apply get_not_in. intros Hin.
    apply column_attrs_keys in Hin.
    apply get_in in Hg. apply (in_map fst) in Hg.
    exact (cdn_key_not_metrics k Hin (Hk k Hg)).
Qed.

Lemma C9_witness :
  exists r,
    parse_gcore_log_line no_decoding empty_values_line = Some r
    /\ (forall k v, In (k, v) (attributes r) -> v <> "")
    /\ PyDict.get "cdn.remote_user" (attributes r) = Some "-"
    /\ PyDict.get "cmcd.br" (attributes r) = None
    /\ PyDict.get "cmcd.ot" (attributes r) = Some "v".
Proof.
  destruct (parse_gcore_log_line no_decoding empty_values_line) as [r|] eqn:E;
    [|vm_compute in E; discriminate].
  exists r. split; [reflexivity|].
  destruct (C9_attribute_values_are_non_empty no_decoding empty_values_line r E)
    as (V & C & M).
  split; [exact V|].
  split; [exact (C 2 "remote_user" "" eq_refl eq_refl eq_refl)|].
  assert (P : path r = "/vod/seg.m4s?cmcd=br=,ot=v")
    by (vm_compute in E; injection E as <-; reflexivity).
  rewrite P in M.
  split; [exact (M "cmcd.br" "" eq_refl) | exact (M "cmcd.ot" "v" eq_refl)].
Defined.

(** C10.  The prefix of the prefixed form is matched case-sensitively: on the
    query string [CMCD.br=3200] the extractor returns the empty mapping.  The
    only parameter is named [CMCD.br]; lower-cased it is not [cmcd], so the
    combined pass finds nothing, and it does not start with [cmcd.], so the
    prefixed pass assigns nothing. *)
Theorem C10_uppercase_prefix_is_ignored (pct_decode : string -> string) :
  parse_qs pct_decode "CMCD.br=3200" = [("CMCD.br", ["3200"])]
  /\ find_cmcd_param (parse_qs pct_decode "CMCD.br=3200") = None
  /\ startswith "cmcd." "CMCD.br" = false
  /\ parse_cmcd_from_query_string pct_decode "CMCD.br=3200" = [].
Proof. repeat split. Qed.

(** * Further properties of the code *)

(** ** The tokenizer *)

Lemma outside_cons (c : ascii) (r : string) :
  outside (String c r)
  = if Ascii.eqb c dquote
    then replace_bs_quote (fst (inside r)) :: snd (inside r)
    else outside r.
Proof. simpl. destruct (Ascii.eqb c dquote), (inside r); reflexivity. Qed.

Lemma absent_cons (a c : ascii) (r : string) :
  mem_char a (String c r) = false ->
  Ascii.eqb c a = false /\ mem_char a r = false.
Proof.
  cbn [mem_char]. intros H. apply orb_false_iff in H.
  destruct H as [H1 H2]. rewrite Ascii.eqb_sym in H1. auto.
Qed.

Lemma outside_skips (junk b : string) :
  contains dquote junk = false ->
  outside (junk ++ b)%string = outside b /\ scan_from Outside junk = Outside.
Proof.
  unfold contains. induction junk as [|c r IH]; intros H; [auto|].
  destruct (absent_cons _ _ _ H) as [H1 H2].
  cbn [append scan_from scan_step]. rewrite outside_cons, H1. auto.
Qed.

(** X1.  The tokenizer returns no field exactly when the line holds no double
    quote. *)
Theorem X1_no_field_iff_no_quote (line : string) :
  _parse_quoted_fields line = [] <-> contains dquote line = false.
Proof.
  unfold _parse_quoted_fields, contains. split.
  - induction line as [|c r IH]; [reflexivity|].
    rewrite outside_cons. cbn [mem_char]. rewrite (Ascii.eqb_sym dquote c).
    destruct (Ascii.eqb c dquote); [discriminate | exact IH].
  - intros H. rewrite <- (append_empty_r line).
    now rewrite (proj1 (outside_skips line "" H)).
Qed.

(** X2.  Text without a double quote that stands between two fields, before
    the first or after the last, does not change the result, whatever its
    characters: the fields of [a ++ junk ++ b] are those of [a] followed by
    those of [b] when [a] ends between fields. *)
Theorem X2_text_between_fields_is_skipped (a junk b : string) :
  opens_field_after a ->
  contains dquote junk = false ->
  _parse_quoted_fields (a ++ junk ++ b)%string
  = _parse_quoted_fields a ++ _parse_quoted_fields b.
Proof.
  intros Ha Hj. unfold _parse_quoted_fields.
  rewrite (proj1 (scan_app a (junk ++ b)) Ha).
  now rewrite (proj1 (outside_skips junk b Hj)).
Qed.

Lemma X2_witness :
  _parse_quoted_fields (quoted "a" ++ ", junk; " ++ quoted "b c")%string
  = ["a"; "b c"].
Proof.
  apply (X2_text_between_fields_is_skipped (quoted "a") ", junk; "
           (quoted "b c")); reflexivity.
Defined.

Lemma replace_cons (c : ascii) (r : string) :
  Ascii.eqb c backslash = false ->
  replace_bs_quote (String c r) = String c (replace_bs_quote r).
Proof. intros H. destruct r; simpl; [reflexivity | now rewrite H]. Qed.

Lemma replace_escape (f : string) :
  contains backslash f = false -> replace_bs_quote (escape_quotes f) = f.
Proof.
  unfold contains. induction f as [|c r IH]; [reflexivity|]. intros H.
  destruct (absent_cons _ _ _ H) as [H1 H2]. cbn [escape_quotes].
  destruct (Ascii.eqb c dquote) eqn:Q.
  - apply Ascii.eqb_eq in Q. subst c.
    change (replace_bs_quote (String backslash (String dquote ?x)))
      with (String dquote (replace_bs_quote x)).
    now rewrite IH.
  - now rewrite replace_cons, IH.
Qed.

Lemma inside_plain (c : ascii) (r : string) :
  Ascii.eqb c dquote = false -> Ascii.eqb c backslash = false ->
  inside (String c r) = (String c (fst (inside r)), snd (inside r)).
Proof. intros Q B. simpl. rewrite Q, B. destruct (inside r); reflexivity. Qed.

Lemma inside_escape (f rest : string) :
  contains backslash f = false ->
  inside (escape_quotes f ++ String dquote rest)%string
  = (escape_quotes f, outside rest).
Proof.
  unfold contains. induction f as [|c r IH]; intros H; [reflexivity|].
  destruct (absent_cons _ _ _ H) as [H1 H2]. cbn [escape_quotes].
  destruct (Ascii.eqb c dquote) eqn:Q.
  - cbn [append].
    change (inside (String backslash (String dquote ?x)))
      with (let '(body, more) := inside x in
            (String backslash (String dquote body), more)).
    now rewrite (IH H2).
  - cbn [append]. now rewrite (inside_plain _ _ Q H1), (IH H2).
Qed.

(** X3.  Reading back a written line: when no field holds a backslash, the
    line made of the fields, each with its double quotes escaped, set between
    double quotes and followed by a separator without a double quote, is
    tokenized to exactly those fields. *)
Theorem X3_written_line_reads_back (sep : string) (fields : list string) :
  contains dquote sep = false ->
  Forall (fun f => contains backslash f = false) fields ->
  _parse_quoted_fields (write_line sep fields) = fields.
Proof.
  intros Hs Hf. unfold _parse_quoted_fields.
  induction Hf as [|f rest Hb _ IH]; [reflexivity|].
  cbn [write_line]. unfold quoted. cbn [append].
  rewrite outside_cons. change (Ascii.eqb dquote dquote) with true. cbn iota.
  rewrite append_assoc. cbn [append].
  rewrite (inside_escape f _ Hb). cbn [fst snd].
  now rewrite (replace_escape f Hb), (proj1 (outside_skips sep _ Hs)), IH.
Qed.

Lemma X3_witness :
  _parse_quoted_fields
    (write_line " " ["a"; String "b" (String dquote "c"); ""; "d e"])
  = ["a"; String "b" (String dquote "c"); ""; "d e"].
Proof.
  apply (X3_written_line_reads_back " "); [reflexivity|].
  repeat constructor.
Defined.

Lemma count_drop_one (c : ascii) (s : string) :
  count_char c (drop 1 s) <= count_char c s.
Proof. destruct s as [|d r]; simpl; lia. Qed.

Lemma quotes_bound (n : nat) (s : string) :
  String.length s <= n ->
  2 * List.length (outside s) <= count_char dquote s + 1
  /\ 2 * List.length (snd (inside s)) <= count_char dquote s.
Proof.
  revert s. induction n as [|n IH]; intros [|c r] L; simpl in L;
    try lia; try (simpl; lia).
  assert (Lr : String.length r <= n) by lia.
  destruct (IH r Lr) as [IHo IHi].
  assert (Ld : String.length (drop 1 r) <= n)
    by (rewrite drop_length; lia).
  destruct (IH _ Ld) as [_ IHd].
  pose proof (count_drop_one dquote r) as D.
  rewrite outside_length_cons, inside_length_cons. cbn [count_char].
  destruct (Ascii.eqb c dquote); [lia|].
  destruct (Ascii.eqb c backslash); lia.
Qed.

(** X4.  A line on which the decoder returns a record holds at least 19
    double quotes: every field but the last needs its two quotes, and ten
    fields are required. *)
Theorem X4_record_needs_19_quotes
  (pct_decode : string -> string) (line : string) (r : ParsedCDNLog) :
  parse_gcore_log_line pct_decode line = Some r ->
  19 <= count_char dquote line.
Proof.
  intros H. destruct (parse_some pct_decode line r H) as (_ & L & _).
  rewrite field_count_strip in L.
  pose proof (proj1 (quotes_bound _ line (le_n _))) as B.
  unfold _parse_quoted_fields in L. lia.
Qed.

Lemma X4_witness : 19 <= count_char dquote upper_case_line.
Proof.
  destruct (parse_gcore_log_line no_decoding upper_case_line) as [r|] eqn:E;
    [|vm_compute in E; discriminate].
  exact (X4_record_needs_19_quotes no_decoding upper_case_line r E).
Defined.

(** ** Trimming *)

Section Strip_by.

Variable p : ascii -> bool.

Lemma rstrip_idem (s : string) :
  rstrip_by p (rstrip_by p s) = rstrip_by p s.
Proof.
  induction s as [|c r IH]; [reflexivity|].
  rewrite rstrip_cons.
  destruct (p c && is_empty (rstrip_by p r)) eqn:B; [reflexivity|].
  now rewrite rstrip_cons, IH, B.
Qed.

Lemma lstrip_fixed (s : string) :
  match s with
  | String c _ => p c = false
  | EmptyString => True
  end ->
  lstrip_by p s = s.
Proof. destruct s as [|c r]; simpl; intros H; [|rewrite H]; reflexivity. Qed.

Lemma rstrip_keeps_head (s : string) :
  match s with
  | String c _ => p c = false
  | EmptyString => True
  end ->
  match rstrip_by p s with
  | String c _ => p c = false
  | EmptyString => True
  end.
Proof.
  destruct s as [|c r]; [auto|]. intros H. now rewrite rstrip_cons, H.
Qed.

Lemma strip_by_idem (s : string) :
  rstrip_by p (lstrip_by p (rstrip_by p (lstrip_by p s)))
  = rstrip_by p (lstrip_by p s).
Proof.
  rewrite (lstrip_fixed (rstrip_by p (lstrip_by p s))).
  - apply rstrip_idem.
  - apply rstrip_keeps_head, lstrip_head.
Qed.


End Strip_by.

Lemma strip_idem (s : string) : strip (strip s) = strip s.
Proof. apply strip_by_idem. Qed.


(** ** The decoder, continued *)

Section Record_fields.

Variable pct_decode : string -> string.

(** The record returned for a line, field by field. *)
Lemma parse_some_record (line : string) (r : ParsedCDNLog) :
  parse_gcore_log_line pct_decode line = Some r ->
  let fields := _parse_quoted_fields (strip line) in
  let req := or_else (_find_request_field fields) (get fields 4 "") in
  r = {| raw := strip line;
         remote_addr := get fields 0 "";
         time_local := _strip_brackets (get fields 3 "");
         request := req;
         method := fst (parse_request req);
         path := snd (parse_request req);
         status := get fields 5 "";
         body_bytes_sent := get fields 6 "";
         http_referer := get fields 7 "";
         http_user_agent := get fields 8 "";
         bytes_sent := get fields 9 "";
         edgename := _strip_brackets (get fields 10 "");
         scheme := get fields 11 "";
         host := get fields 12 "";
         request_time := get fields 13 "";
         upstream_cache_status := get fields 18 "";
         geoip_country_code := get fields 25 "";
         sent_http_content_type := get fields 39 "";
         attributes :=
           merge_cmcd (column_attrs fields)
             (cmcd_of pct_decode fields (snd (parse_request req))) |}.
Proof.
  intros H fields req. unfold parse_gcore_log_line in H.
  destruct (is_empty (strip line)) eqn:E; [discriminate|].
  change (_parse_quoted_fields (strip line)) with fields in H.
  destruct (List.length fields <? 10)%nat eqn:L; [discriminate|].
  change (or_else (_find_request_field fields) (get fields 4 "")) with req in H.
  destruct (parse_request req) as [m p] eqn:R.
  injection H as <-. reflexivity.
Qed.

(** X6.  The decoder sees a line only through its trimmed text: a line and
    its trimmed text give the same result, and decoding the [raw] field of a
    returned record gives that record again. *)
Theorem X6_decoding_is_idempotent (line : string) :
  parse_gcore_log_line pct_decode (strip line)
  = parse_gcore_log_line pct_decode line
  /\ forall r, parse_gcore_log_line pct_decode line = Some r ->
               parse_gcore_log_line pct_decode (raw r) = Some r.
Proof.
  assert (E : parse_gcore_log_line pct_decode (strip line)
              = parse_gcore_log_line pct_decode line).
  { unfold parse_gcore_log_line. now rewrite strip_idem. }
  split; [exact E|].
  intros r H. destruct (parse_some pct_decode line r H) as (_ & _ & R & _).
  now rewrite R, E.
Qed.

(** X7.  The decoder returns a record exactly when the line, as given or
    trimmed, tokenizes to at least 10 fields. *)
Theorem X7_record_iff_ten_fields (line : string) :
  (exists r, parse_gcore_log_line pct_decode line = Some r)
  <-> 10 <= List.length (_parse_quoted_fields line).
Proof.
  rewrite <- field_count_strip. split.
  - intros [r H]. now destruct (parse_some pct_decode line r H) as (_ & L & _).
  - apply parse_returns.
Qed.

End Record_fields.

(** ** The attribute mapping, continued *)

Lemma enumerate_in_inv {A : Type} (l : list A) (s i : nat) (x : A) :
  In (i, x) (combine (seq s (List.length l)) l) ->
  s <= i /\ nth_error l (i - s) = Some x.
Proof.
  revert s. induction l as [|y l IH]; intros s H; simpl in H; [destruct H|].
  destruct H as [E|H].
  - inversion E; subst. split; [lia|]. now rewrite Nat.sub_diag.
  - destruct (IH _ H) as [L N]. split; [lia|].
    replace (i - s) with (S (i - S s)) by lia. exact N.
Qed.

Lemma column_fold_unset (fields : list string) (l : list (nat * string))
  (attrs : PyDict.dict string) (name : string) :
  (forall i, In (i, name) l ->
             nth_error fields i = None \/ startswith "_" name = true) ->
  PyDict.get ("cdn." ++ name)%string (fold_left (column_step fields) l attrs)
  = PyDict.get ("cdn." ++ name)%string attrs.
Proof.
  revert attrs. induction l as [|[i n] l IH]; intros attrs H; [reflexivity|].
  cbn [fold_left]. rewrite IH by (intros j Hj; apply H; now right).
  destruct (String.eqb n name) eqn:E.
  - apply String.eqb_eq in E. subst n. unfold column_step.
    destruct (H i (or_introl eq_refl)) as [N|U].
    + rewrite N. now destruct (startswith "_" name).
    + now rewrite U.
  - apply column_step_other. intros F. subst n.
    now rewrite String.eqb_refl in E.
Qed.

Section Attributes.

Variable pct_decode : string -> string.

Lemma record_attributes (line : string) (r : ParsedCDNLog) :
  parse_gcore_log_line pct_decode line = Some r ->
  exists cm, metrics_keys cm
             /\ attributes r
                = merge_cmcd (column_attrs (_parse_quoted_fields (strip line))) cm.
Proof.
  intros H.
  destruct (parse_some pct_decode line r H) as (_ & _ & _ & _ & _ & _ & A).
  eexists. split; [|exact A]. apply cmcd_of_keys.
Qed.

Lemma record_column (line : string) (r : ParsedCDNLog) (name : string) :
  parse_gcore_log_line pct_decode line = Some r ->
  PyDict.get ("cdn." ++ name)%string (attributes r)
  = PyDict.get ("cdn." ++ name)%string
      (column_attrs (_parse_quoted_fields (strip line))).
Proof.
  intros H. destruct (record_attributes line r H) as (cm & [_ Hk] & A).
  rewrite A. apply merge_get_other.
  intros Hin. apply Hk in Hin. discriminate.
Qed.

(** X8.  The keys of a record's attributes are unique, and each begins with
    [cdn.] or with [cmcd.]. *)
Theorem X8_attribute_keys (line : string) (r : ParsedCDNLog) :
  parse_gcore_log_line pct_decode line = Some r ->
  NoDup (PyDict.keys (attributes r))
  /\ forall k, In k (PyDict.keys (attributes r)) ->
               startswith "cdn." k = true \/ startswith "cmcd." k = true.
Proof.
  intros H. destruct (record_attributes line r H) as (cm & [_ Hk] & A).
  rewrite A. unfold merge_cmcd.
  apply (fold_left_invariant
           (fun d => NoDup (PyDict.keys d)
                     /\ forall k, In k (PyDict.keys d) ->
                                  startswith "cdn." k = true
                                  \/ startswith "cmcd." k = true)).
  - intros a [k0 v0] Hin [Hn Hs]. unfold merge_step.
    destruct (is_empty v0); [auto|]. split; [now apply set_keys_nodup|].
    intros k Hk'. destruct (in_keys_set _ _ _ _ Hk') as [->|Hk''].
    + right. apply Hk. change k0 with (fst (k0, v0)). now apply in_map.
    + auto.
  - split.
    + unfold column_attrs. apply fold_set_nodup; [|constructor].
      intros d [i n] Hd. unfold column_step.
      destruct (startswith "_" n); [exact Hd|].
      destruct (nth_error _ i); [now apply set_keys_nodup | exact Hd].
    + intros k Hk'. left. now apply column_attrs_keys in Hk'.
Qed.

End Attributes.

Lemma X8_witness :
  exists r, parse_gcore_log_line no_decoding sample_line = Some r
            /\ NoDup (PyDict.keys (attributes r)).
Proof.
  destruct (parse_gcore_log_line no_decoding sample_line) as [r|] eqn:E;
    [|vm_compute in E; discriminate].
  exists r. split; [reflexivity|].
  exact (proj1 (X8_attribute_keys no_decoding sample_line r E)).
Defined.

(** X9.  A column the line has no token for is omitted, and a placeholder
    column (one whose name begins with an underscore) is never exported: in
    both cases the record has no attribute under that column's key. *)
Theorem X9_absent_and_placeholder_columns
  (pct_decode : string -> string) (line : string) (r : ParsedCDNLog)
  (idx : nat) (name : string) :
  parse_gcore_log_line pct_decode line = Some r ->
  nth_error FIELD_NAMES idx = Some name ->
  List.length (_parse_quoted_fields line) <= idx
  \/ startswith "_" name = true ->
  PyDict.get ("cdn." ++ name)%string (attributes r) = None.
Proof.
  intros H Hname Hc. rewrite <- field_count_strip in Hc.
  rewrite (record_column pct_decode line r name H).
  unfold column_attrs. rewrite column_fold_unset; [reflexivity|].
  intros i Hin. destruct Hc as [Hc|Hc]; [left | now right].
  apply enumerate_in_inv in Hin. destruct Hin as [_ Hin].
  rewrite Nat.sub_0_r in Hin.
  assert (E : i = idx).
  { apply (proj1 (NoDup_nth_error FIELD_NAMES) field_names_nodup).
    - apply nth_error_Some. congruence.
    - congruence. }
  subst i. now apply nth_error_None.
Qed.

Lemma X9_witness :
  exists r, parse_gcore_log_line no_decoding shifted_line = Some r
            /\ PyDict.get "cdn.edgename" (attributes r) = None
            /\ PyDict.get "cdn._" (attributes r) = None.
Proof.
  destruct (parse_gcore_log_line no_decoding shifted_line) as [r|] eqn:E;
    [|vm_compute in E; discriminate].
  exists r. split; [reflexivity|]. split.
  - apply (X9_absent_and_placeholder_columns no_decoding shifted_line r 10
             "edgename" E eq_refl).
    left. vm_compute. lia.
  - apply (X9_absent_and_placeholder_columns no_decoding shifted_line r 1
             "_" E eq_refl).
    right. reflexivity.
Defined.

Lemma or_else_twice (x : string) : or_else (or_else x "") "-" = or_else x "-".
Proof. destruct x; reflexivity. Qed.

(** X10.  Each scalar field that the decoder fills by position alone agrees
    with the attribute of the column at that position: when the line has a
    token there the attribute is the scalar field, or a dash when the scalar
    field is empty; when it has none the attribute is absent and the scalar
    field is empty.  The column at the position is the one the field is named
    after, except that [sent_http_content_type] is read at position 39, whose
    column is [http_x_forwarded_proto]. *)
Theorem X10_scalar_fields_agree_with_attributes
  (pct_decode : string -> string) (line : string) (r : ParsedCDNLog)
  (idx : nat) (name : string) (field : ParsedCDNLog -> string) :
  parse_gcore_log_line pct_decode line = Some r ->
  In (idx, name, field) scalar_columns ->
  if (idx <? List.length (_parse_quoted_fields line))%nat
  then PyDict.get ("cdn." ++ name)%string (attributes r)
       = Some (or_else (field r) "-")
  else PyDict.get ("cdn." ++ name)%string (attributes r) = None
       /\ field r = "".
Proof.
  intros H Hin. rewrite <- field_count_strip.
  pose proof (parse_some_record pct_decode line r H) as R. cbv zeta in R.
  rewrite (record_column pct_decode line r name H).
  set (fields := _parse_quoted_fields (strip line)) in *.
  assert (G : field r = get fields idx ""
              /\ nth_error FIELD_NAMES idx = Some name
              /\ startswith "_" name = false).
  { assert (A : Forall (fun c : nat * string * (ParsedCDNLog -> string) =>
                          snd c r = get fields (fst (fst c)) ""
                          /\ nth_error FIELD_NAMES (fst (fst c))
                             = Some (snd (fst c))
                          /\ startswith "_" (snd (fst c)) = false)
                       scalar_columns).
    { rewrite R. unfold scalar_columns.
      repeat (constructor; [repeat split|]). constructor. }
    rewrite Forall_forall in A. exact (A _ Hin). }
  destruct G as (G & Hname & Hu). rewrite G. unfold get.
  destruct (idx <? List.length fields)%nat eqn:L.
  - apply Nat.ltb_lt in L.
    destruct (nth_error fields idx) as [f|] eqn:F;
      [|apply nth_error_None in F; lia].
    rewrite or_else_twice. now apply column_get with (idx := idx).
  - apply Nat.ltb_ge in L.
    assert (F : nth_error fields idx = None) by now apply nth_error_None.
    rewrite F. split; [|reflexivity].
    unfold column_attrs. rewrite column_fold_unset; [reflexivity|].
    intros i Hi. left.
    apply enumerate_in_inv in Hi. destruct Hi as [_ Hi].
    rewrite Nat.sub_0_r in Hi.
    assert (E : i = idx).
    { apply (proj1 (NoDup_nth_error FIELD_NAMES) field_names_nodup).
      - apply nth_error_Some. congruence.
      - congruence. }
    now subst i.
Qed.

Lemma X10_witness :
  exists r, parse_gcore_log_line no_decoding empty_values_line = Some r
            /\ PyDict.get "cdn.status" (attributes r) = Some (or_else (status r) "-")
            /\ PyDict.get "cdn.host" (attributes r) = None /\ host r = "".
Proof.
  destruct (parse_gcore_log_line no_decoding empty_values_line) as [r|] eqn:E;
    [|vm_compute in E; discriminate].
  exists r. split; [reflexivity|]. split.
  - apply (X10_scalar_fields_agree_with_attributes no_decoding
             empty_values_line r 5 "status" status E).
    unfold scalar_columns. cbn [In]. tauto.
  - apply (X10_scalar_fields_agree_with_attributes no_decoding
             empty_values_line r 12 "host" host E).
    unfold scalar_columns. cbn [In]. tauto.
Defined.

(** X11.  The scalar field [sent_http_content_type] is the trimmed token at
    position 39, while the attribute [cdn.sent_http_content_type] is the
    token at position 44, where [FIELD_NAMES] has that name: on a line with
    both tokens the scalar field and the attribute of the same name come
    from different columns. *)
Theorem X11_content_type_is_read_at_position_39
  (pct_decode : string -> string) (line : string) (r : ParsedCDNLog)
  (f39 f44 : string) :
  parse_gcore_log_line pct_decode line = Some r ->
  nth_error (_parse_quoted_fields (strip line)) 39 = Some f39 ->
  nth_error (_parse_quoted_fields (strip line)) 44 = Some f44 ->
  sent_http_content_type r = strip f39
  /\ PyDict.get "cdn.sent_http_content_type" (attributes r)
     = Some (or_else (strip f44) "-")
  /\ PyDict.get "cdn.http_x_forwarded_proto" (attributes r)
     = Some (or_else (strip f39) "-").
Proof.
  intros H H39 H44.
  pose proof (parse_some_record pct_decode line r H) as R. cbv zeta in R.
  split; [|split].
  - rewrite R. cbn [sent_http_content_type]. unfold get.
    rewrite H39. apply or_else_empty_r.
  - pose proof (record_column pct_decode line r "sent_http_content_type" H)
      as Q.
    cbn [append] in Q. rewrite Q.
    now apply (column_get _ 44 "sent_http_content_type" f44).
  - pose proof (record_column pct_decode line r "http_x_forwarded_proto" H)
      as Q.
    cbn [append] in Q. rewrite Q.
    now apply (column_get _ 39 "http_x_forwarded_proto" f39).
Qed.

Lemma X11_witness :
  exists r, parse_gcore_log_line no_decoding wide_line = Some r
            /\ sent_http_content_type r = "https"
            /\ PyDict.get "cdn.sent_http_content_type" (attributes r)
               = Some "video/mp4".
Proof.
  destruct (parse_gcore_log_line no_decoding wide_line) as [r|] eqn:E;
    [|vm_compute in E; discriminate].
  exists r. split; [reflexivity|].
  destruct (X11_content_type_is_read_at_position_39 no_decoding wide_line r
              "https" "video/mp4" E eq_refl eq_refl) as (A & B & _).
  split; [exact A | exact B].
Defined.

(** X12.  Metrics found in the path take precedence over a raw marker field:
    when the path of a returned record yields at least one metrics key, the
    merged metrics are those of the path and no token is searched. *)
Theorem X12_path_metrics_take_precedence
  (pct_decode : string -> string) (line : string) (r : ParsedCDNLog) :
  parse_gcore_log_line pct_decode line = Some r ->
  parse_cmcd_from_path pct_decode (path r) <> [] ->
  attributes r
  = merge_cmcd (column_attrs (_parse_quoted_fields (strip line)))
      (parse_cmcd_from_path pct_decode (path r)).
Proof.
  intros H Hp.
  destruct (parse_some pct_decode line r H) as (_ & _ & _ & _ & _ & _ & A).
  rewrite A. f_equal. unfold cmcd_of.
  destruct (parse_cmcd_from_path pct_decode (path r)); [congruence|reflexivity].
Qed.

Lemma X12_witness :
  exists r, parse_gcore_log_line no_decoding both_places_line = Some r
            /\ PyDict.get "cmcd.br" (attributes r) = Some "3200"
            /\ PyDict.get "cmcd.bl" (attributes r) = None.
Proof.
  destruct (parse_gcore_log_line no_decoding both_places_line) as [r|] eqn:E;
    [|vm_compute in E; discriminate].
  exists r. split; [reflexivity|].
  assert (P : path r = "/vod/seg.m4s?cmcd=ot=v,br=3200")
    by (vm_compute in E; injection E as <-; reflexivity).
  rewrite (X12_path_metrics_take_precedence no_decoding both_places_line r E).
  - rewrite P. split; reflexivity.
  - rewrite P. discriminate.
Defined.

(** ** [parse_request] *)

Lemma span_word_of_word (w tail : string) :
  has_space w = false ->
  match tail with
  | String c _ => isspace c = true
  | EmptyString => True
  end ->
  span_word (w ++ tail)%string = (w, tail).
Proof.
  intros Hw Ht. induction w as [|c r IH]; cbn [append].
  - destruct tail as [|c t]; [reflexivity|]. simpl. now rewrite Ht.
  - cbn [has_space] in Hw. apply orb_false_iff in Hw. destruct Hw as [H1 H2].
    cbn [span_word]. now rewrite H1, (IH H2).
Qed.

Lemma span_word_no_space (s : string) : has_space (fst (span_word s)) = false.
Proof.
  induction s as [|c r IH]; [reflexivity|]. cbn [span_word].
  destruct (isspace c) eqn:W; [reflexivity|].
  destruct (span_word r) as [w rest]. cbn [fst has_space] in *.
  now rewrite W, IH.
Qed.

Lemma span_word_nonempty (s : string) :
  match s with
  | String c _ => isspace c = false
  | EmptyString => False
  end ->
  fst (span_word s) <> "".
Proof.
  destruct s as [|c r]; [contradiction|]. intros H. cbn [span_word].
  rewrite H. destruct (span_word r). discriminate.
Qed.

Lemma lstrip_word (w tail : string) :
  w <> "" -> has_space w = false ->
  lstrip_by isspace (w ++ tail)%string = (w ++ tail)%string.
Proof.
  destruct w as [|c r]; [congruence|]. intros _ H.
  cbn [has_space] in H. apply orb_false_iff in H. destruct H as [H _].
  cbn [append lstrip_by]. now rewrite H.
Qed.

(** The method is the text up to the first whitespace and the path is the
    word that follows it. *)
Lemma parse_request_word (m t : string) (w : ascii) :
  m <> "" -> has_space m = false -> isspace w = true ->
  parse_request (m ++ String w t)%string
  = (m, fst (span_word (lstrip_by isspace t))).
Proof.
  intros Hm Hs Hw. unfold parse_request. cbn [split_ws].
  rewrite (lstrip_word m _ Hm Hs).
  destruct m as [|c r] eqn:E; [congruence|]. rewrite <- E in *.
  replace (is_empty (m ++ String w t)%string) with false
    by (subst m; reflexivity).
  rewrite (span_word_of_word m (String w t) Hs Hw).
  cbn [lstrip_by]. rewrite Hw.
  destruct (lstrip_by isspace t) as [|d t'] eqn:L; [reflexivity|].
  cbn [is_empty]. destruct (span_word (String d t')) as [p rest].
  reflexivity.
Qed.

(** X13.  A request line is split at whitespace: for a method and a path that
    are non-empty and hold no whitespace, separated by one whitespace
    character, the result is that method and that path, whether nothing
    follows the path or a whitespace character and any text. *)
Theorem X13_parse_request_splits_a_request_line
  (m p rest : string) (w1 w2 : ascii) :
  m <> "" -> p <> "" -> has_space m = false -> has_space p = false ->
  isspace w1 = true -> isspace w2 = true ->
  parse_request (m ++ String w1 (p ++ String w2 rest))%string = (m, p)
  /\ parse_request (m ++ String w1 p)%string = (m, p).
Proof.
  intros Hm Hp Sm Sp W1 W2. split.
  - rewrite (parse_request_word m _ w1 Hm Sm W1).
    rewrite (lstrip_word p _ Hp Sp).
    now rewrite (span_word_of_word p (String w2 rest) Sp W2).
  - rewrite (parse_request_word m _ w1 Hm Sm W1).
    rewrite <- (append_empty_r p) at 1.
    rewrite (lstrip_word p _ Hp Sp).
    now rewrite (span_word_of_word p "" Sp I).
Qed.

Lemma X13_witness :
  parse_request "DELETE /a/b?x=1 HTTP/2 extra" = ("DELETE", "/a/b?x=1")
  /\ parse_request "DELETE /a/b?x=1" = ("DELETE", "/a/b?x=1").
Proof.
  apply (X13_parse_request_splits_a_request_line "DELETE" "/a/b?x=1"
           "HTTP/2 extra" " " " "); (reflexivity || discriminate).
Defined.

Lemma lstrip_empty_iff_strip (s : string) :
  lstrip_by isspace s = "" <-> strip s = "".
Proof.
  unfold strip. split; intros H; [now rewrite H|].
  pose proof (lstrip_head isspace s) as Hh.
  destruct (lstrip_by isspace s) as [|c r]; [reflexivity|].
  rewrite (rstrip_head _ _ _ Hh) in H. discriminate.
Qed.

(** X14.  Neither the method nor the path returned by [parse_request] holds
    whitespace; the method is empty exactly when the request is blank, and
    then the path is empty too. *)
Theorem X14_method_and_path_hold_no_whitespace (request : string) :
  has_space (fst (parse_request request)) = false
  /\ has_space (snd (parse_request request)) = false
  /\ (fst (parse_request request) = "" <-> strip request = "")
  /\ (fst (parse_request request) = "" -> snd (parse_request request) = "").
Proof.
  rewrite <- lstrip_empty_iff_strip.
  unfold parse_request. cbn [split_ws].
  pose proof (lstrip_head isspace request) as Hh.
  destruct (lstrip_by isspace request) as [|c r] eqn:L.
  - cbn. repeat split; auto.
  - cbn [is_empty].
    pose proof (span_word_no_space (String c r)) as N1.
    pose proof (span_word_nonempty (String c r) Hh) as N2.
    destruct (span_word (String c r)) as [w rest]. cbn [fst] in N1, N2.
    pose proof (span_word_no_space (lstrip_by isspace rest)) as N3.
    destruct (lstrip_by isspace rest) as [|d t] eqn:L2.
    + cbn. repeat split; auto; try congruence; try discriminate.
    + cbn [is_empty]. destruct (span_word (String d t)) as [p rest'].
      cbn [fst snd] in *.
      repeat split; auto; try congruence; try discriminate.
Qed.

Lemma second_word_nonempty (t : string) :
  lstrip_by isspace t <> "" -> fst (span_word (lstrip_by isspace t)) <> "".
Proof.
  intros H. apply span_word_nonempty.
  pose proof (lstrip_head isspace t) as Hh.
  destruct (lstrip_by isspace t); [congruence | exact Hh].
Qed.

Lemma contains_nonempty (c : ascii) (s : string) :
  contains c s = true -> s <> "".
Proof. destruct s; [discriminate | discriminate]. Qed.

Lemma lstrip_nonempty_of_strip (t : string) :
  strip t <> "" -> lstrip_by isspace t <> "".
Proof. intros H E. apply H. now apply lstrip_empty_iff_strip. Qed.

(** A token accepted by the request test parses to a known method and a
    non-empty path. *)
Lemma looks_like_request_parts (s : string) :
  looks_like_request s = true ->
  In (fst (parse_request s)) HTTP_METHODS /\ snd (parse_request s) <> "".
Proof.
  unfold looks_like_request, starts_with_method. intros H.
  apply andb_true_iff in H. destruct H as [Hm H].
  apply andb_true_iff in H. destruct H as [Hsp Hsl].
  destruct (startswith "GET " s) eqn:G.
  { pose proof (startswith_drop _ _ G) as E. cbn [String.length] in E.
    rewrite <- E in Hsp |- *. set (t := drop 4 s) in *.
    change (drop 4 ("GET " ++ t)%string) with t in Hsp.
    change ("GET " ++ t)%string with ("GET" ++ String " " t)%string.
    rewrite parse_request_word by (reflexivity || discriminate).
    split; [simpl; auto|].
    apply second_word_nonempty, lstrip_nonempty_of_strip.
    exact (contains_nonempty _ _ Hsp). }
  destruct (startswith "POST " s) eqn:P.
  { pose proof (startswith_drop _ _ P) as E. cbn [String.length] in E.
    rewrite <- E in Hsp |- *. set (t := drop 5 s) in *.
    change (strip (drop 4 ("POST " ++ t)%string)) with (strip t) in Hsp.
    change ("POST " ++ t)%string with ("POST" ++ String " " t)%string.
    rewrite parse_request_word by (reflexivity || discriminate).
    split; [simpl; auto|].
    apply second_word_nonempty, lstrip_nonempty_of_strip.
    exact (contains_nonempty _ _ Hsp). }
  destruct (startswith "HEAD " s) eqn:Hd.
  { pose proof (startswith_drop _ _ Hd) as E. cbn [String.length] in E.
    rewrite <- E in Hsp |- *. set (t := drop 5 s) in *.
    change (strip (drop 4 ("HEAD " ++ t)%string)) with (strip t) in Hsp.
    change ("HEAD " ++ t)%string with ("HEAD" ++ String " " t)%string.
    rewrite parse_request_word by (reflexivity || discriminate).
    split; [simpl; auto|].
    apply second_word_nonempty, lstrip_nonempty_of_strip.
    exact (contains_nonempty _ _ Hsp). }
  destruct (startswith "PUT " s) eqn:U.
  { pose proof (startswith_drop _ _ U) as E. cbn [String.length] in E.
    rewrite <- E in Hsp |- *. set (t := drop 4 s) in *.
    change (drop 4 ("PUT " ++ t)%string) with t in Hsp.
    change ("PUT " ++ t)%string with ("PUT" ++ String " " t)%string.
    rewrite parse_request_word by (reflexivity || discriminate).
    split; [simpl; auto|].
    apply second_word_nonempty, lstrip_nonempty_of_strip.
    exact (contains_nonempty _ _ Hsp). }
  destruct (startswith "OPTIONS " s) eqn:O; [|discriminate].
  pose proof (startswith_drop _ _ O) as E. cbn [String.length] in E.
  rewrite <- E in Hsl |- *. set (t := drop 8 s) in *.
  change ("OPTIONS " ++ t)%string with ("OPTIONS" ++ String " " t)%string.
  rewrite parse_request_word by (reflexivity || discriminate).
  split; [simpl; auto 10|].
  apply second_word_nonempty. intros Z.
  assert (F : isspace "/" = true).
  { apply (lstrip_empty_all isspace t Z). exact Hsl. }
  discriminate.
Qed.

(** X15.  What [_find_request_field] returns is the empty string or the
    trimmed text of one of the tokens, and in the second case it parses to
    one of the five known methods and a non-empty path. *)
Theorem X15_found_request_has_method_and_path (fields : list string) :
  _find_request_field fields <> "" ->
  (exists f, In f fields /\ _find_request_field fields = strip f)
  /\ In (fst (parse_request (_find_request_field fields))) HTTP_METHODS
  /\ snd (parse_request (_find_request_field fields)) <> "".
Proof.
  rewrite find_request_field_spec.
  destruct (find (fun f => looks_like_request (strip f)) fields) as [f|] eqn:F;
    [|congruence].
  intros _. apply find_some in F. destruct F as [Hin Hl].
  split; [exists f; auto|]. now apply looks_like_request_parts.
Qed.

Lemma X15_witness :
  _find_request_field shifted_fields = "GET /x HTTP/1.1"
  /\ In (fst (parse_request (_find_request_field shifted_fields))) HTTP_METHODS
  /\ snd (parse_request (_find_request_field shifted_fields)) <> "".
Proof.
  split; [reflexivity|].
  apply (X15_found_request_has_method_and_path shifted_fields). discriminate.
Defined.

(** ** The metrics extractor, continued *)

Lemma length_append (a b : string) :
  String.length (a ++ b)%string = String.length a + String.length b.
Proof. induction a; simpl; auto. Qed.

Lemma take_append (a b : string) : take (String.length a) (a ++ b)%string = a.
Proof. induction a; simpl; [now destruct b | congruence]. Qed.

Lemma last_char_append (a : string) (c : ascii) :
  last_char (a ++ String c "")%string = Some c.
Proof.
  induction a as [|d r IH]; [reflexivity|].
  cbn [append]. destruct (r ++ String c "")%string eqn:E.
  - destruct r; discriminate.
  - cbn [last_char]. exact IH.
Qed.

Lemma strip_quoted (s : string) : strip (quoted s) = quoted s.
Proof.
  unfold strip, quoted. cbn [lstrip_by].
  change (isspace dquote) with false. cbv iota.
  rewrite rstrip_cons. change (isspace dquote) with false. cbn [andb].
  f_equal. induction s as [|c r IH]; [reflexivity|].
  cbn [append]. rewrite rstrip_cons, IH.
  destruct (r ++ String dquote "")%string eqn:E; [destruct r; discriminate|].
  cbn [is_empty]. now rewrite andb_false_r.
Qed.

(** X16.  [_clean] removes exactly one layer of double quotes: a value whose
    trimmed text is [s] between two double quotes is cleaned to [s],
    whatever [s] holds, further quotes and surrounding whitespace
    included. *)
Theorem X16_clean_removes_one_layer_of_quotes (v s : string) :
  strip v = quoted s -> _clean v = s.
Proof.
  intros H. unfold _clean. rewrite or_else_empty_r, H.
  assert (L : String.length (quoted s) = S (S (String.length s))).
  { unfold quoted. cbn [String.length]. rewrite length_append. simpl. lia. }
  assert (E : last_char (quoted s) = Some dquote).
  { exact (last_char_append (String dquote s) dquote). }
  rewrite L, E. change (String.get 0 (quoted s)) with (Some dquote).
  change (Ascii.eqb dquote dquote) with true.
  cbn [Nat.leb andb]. unfold slice, quoted. cbn [drop].
  replace (S (S (String.length s)) - 1 - 1) with (String.length s) by lia.
  apply take_append.
Qed.

Lemma X16_witness :
  _clean (" " ++ quoted (quoted "abc-123") ++ " ")%string = quoted "abc-123".
Proof.
  apply (X16_clean_removes_one_layer_of_quotes _ (quoted "abc-123")).
  reflexivity.
Defined.

Lemma partition_at (sep : ascii) (a b : string) :
  mem_char sep a = false ->
  partition sep (a ++ String sep b)%string = (a, true, b).
Proof.
  induction a as [|c r IH]; intros H.
  - cbn [append partition]. now rewrite Ascii.eqb_refl.
  - destruct (absent_cons _ _ _ H) as [H1 H2].
    cbn [append partition]. now rewrite H1, (IH H2).
Qed.

Lemma query_safe_absent (s : string) :
  query_safe s = true ->
  mem_char "&" s = false /\ mem_char "+" s = false /\ mem_char "%" s = false.
Proof.
  unfold query_safe, contains. intros H. apply negb_true_iff in H.
  apply orb_false_iff in H. destruct H as [H H3].
  apply orb_false_iff in H. destruct H as [H1 H2]. auto.
Qed.

Section Extractor_forms.

Variable pct_decode : string -> string.

(** What [parse_qs] returns for one parameter [name=value]. *)
Lemma parse_qs_single (name value : string) :
  name <> "" ->
  query_safe name = true -> mem_char "=" name = false ->
  query_safe value = true ->
  parse_qs pct_decode (name ++ String "=" value)%string = [(name, [value])].
Proof.
  intros Hn Sn En Sv.
  destruct (query_safe_absent _ Sn) as (A1 & A2 & A3).
  destruct (query_safe_absent _ Sv) as (B1 & B2 & B3).
  unfold parse_qs, parse_qsl.
  destruct name as [|c r] eqn:E; [congruence|]. rewrite <- E in *.
  replace (is_empty (name ++ String "=" value)%string) with false
    by (subst name; reflexivity).
  rewrite split_absent
    by (rewrite mem_char_append, A1; cbn [mem_char orb]; exact B1).
  cbn [flat_map].
  replace (is_empty (name ++ String "=" value)%string) with false
    by (subst name; reflexivity).
  rewrite (partition_at "=" name value En).
  rewrite !replace_absent by assumption.
  unfold unquote, contains. rewrite A3, B3. cbn [app fold_left PyDict.get].
  reflexivity.
Qed.

(** X17.  The extractor returns pairwise distinct keys, each made of the
    prefix [cmcd.] and a non-empty metrics key. *)
Theorem X17_extractor_keys_are_prefixed_and_distinct (query_string : string) :
  NoDup (PyDict.keys (parse_cmcd_from_query_string pct_decode query_string))
  /\ forall key,
       In key (PyDict.keys
                 (parse_cmcd_from_query_string pct_decode query_string)) ->
       exists k, k <> "" /\ key = ("cmcd." ++ k)%string.
Proof.
  split; [apply (extractor_keys pct_decode query_string)|].
  set (P := fun d : PyDict.dict string =>
              forall key, In key (PyDict.keys d) ->
                          exists k, k <> "" /\ key = ("cmcd." ++ k)%string).
  assert (Pset : forall d k v, k <> "" -> P d ->
                               P (PyDict.set ("cmcd." ++ k) v d)).
  { intros d k v Hk Hd key Hin.
    destruct (in_keys_set _ _ _ _ Hin) as [->|Hin']; [now exists k | auto]. }
  assert (Pnil : P []) by (intros key []).
  unfold parse_cmcd_from_query_string.
  destruct (is_empty query_string || is_empty (strip query_string));
    [exact Pnil|].
  apply (fold_left_invariant P).
  - intros a [key values] _ Ha. unfold add_prefixed.
    destruct values as [|v0 vs]; [exact Ha|].
    destruct (startswith "cmcd." key); [|exact Ha].
    destruct (drop 5 key) as [|c r] eqn:D; [exact Ha|].
    apply Pset; [discriminate | exact Ha].
  - apply (fold_left_invariant P); [|exact Pnil].
    intros a raw _ Ha. apply (fold_left_invariant P); [|exact Ha].
    intros a' pair _ Ha'. unfold add_pair.
    destruct (contains "=" (strip pair)); [|exact Ha'].
    destruct (partition "=" (strip pair)) as [[k f] v].
    destruct (strip k) as [|c r] eqn:K; [exact Ha'|].
    apply Pset; [discriminate | exact Ha'].
Qed.

(** X18.  One prefixed parameter: for a non-empty key [k] and a value [v]
    that hold none of [&], [+] and [%], and no [=] in [k], the query string
    [cmcd.k=v] yields the single entry [cmcd.k] with [v] cleaned; the key is
    taken as it is, whitespace included. *)
Theorem X18_one_prefixed_parameter (k v : string) :
  k <> "" -> query_safe k = true -> contains "=" k = false ->
  query_safe v = true ->
  parse_cmcd_from_query_string pct_decode ("cmcd." ++ k ++ "=" ++ v)%string
  = [(("cmcd." ++ k)%string, _clean v)].
Proof.
  intros Hk Sk Ek Sv. unfold parse_cmcd_from_query_string.
  assert (B : is_empty ("cmcd." ++ k ++ "=" ++ v)%string
              || is_empty (strip ("cmcd." ++ k ++ "=" ++ v)%string) = false).
  { unfold strip. cbn [append lstrip_by].
    change (isspace "c") with false. cbv iota.
    rewrite rstrip_cons. reflexivity. }
  rewrite B.
  change ("cmcd." ++ k ++ "=" ++ v)%string
    with ("cmcd." ++ (k ++ String "=" v))%string.
  rewrite <- append_assoc.
  destruct (query_safe_absent _ Sk) as (A1 & A2 & A3).
  assert (Q : parse_qs pct_decode (("cmcd." ++ k) ++ String "=" v)%string
              = [(("cmcd." ++ k)%string, [v])]).
  { apply parse_qs_single.
    - discriminate.
    - unfold query_safe, contains. rewrite !mem_char_append, A1, A2, A3.
      reflexivity.
    - rewrite mem_char_append. exact Ek.
    - exact Sv. }
  rewrite Q. unfold find_cmcd_param. cbn [PyDict.keys map find].
  change (String.eqb (lower ("cmcd." ++ k)) "cmcd") with false.
  cbv iota. cbn [fold_left add_prefixed].
  rewrite (startswith_append "cmcd." k).
  change 5 with (String.length "cmcd."). rewrite drop_append.
  destruct k as [|c r]; [congruence|]. cbn [is_empty].
  now rewrite or_else_empty_r.
Qed.

End Extractor_forms.

Lemma X18_witness :
  parse_cmcd_from_query_string no_decoding ("cmcd.sid=" ++ quoted "abc-123")
  = [("cmcd.sid", "abc-123")].
Proof.
  apply (X18_one_prefixed_parameter no_decoding "sid" (quoted "abc-123"));
    (reflexivity || discriminate).
Defined.

(** ** The combined form *)

Lemma lower_length (s : string) : String.length (lower s) = String.length s.
Proof. induction s; simpl; auto. Qed.

Lemma mem_lower (c : ascii) (s : string) :
  mem_char c s = true -> mem_char (lower_char c) (lower s) = true.
Proof.
  induction s as [|d r IH]; [discriminate|]. cbn [mem_char lower].
  intros H. apply orb_true_iff in H. destruct H as [H|H].
  - apply Ascii.eqb_eq in H. subst d. now rewrite Ascii.eqb_refl.
  - rewrite (IH H). apply orb_true_r.
Qed.

Lemma lower_absent (c : ascii) (s t : string) :
  lower s = t -> lower_char c = c -> mem_char c t = false ->
  mem_char c s = false.
Proof.
  intros Hl Hc Ht. destruct (mem_char c s) eqn:E; [|reflexivity].
  apply mem_lower in E. rewrite Hl, Hc in E. congruence.
Qed.

Lemma lower_c_not_space (a : ascii) :
  lower_char a = "c"%char -> isspace a = false.
Proof.
  destruct a as [[] [] [] [] [] [] [] []]; vm_compute; intros H;
    (reflexivity || discriminate).
Qed.

Lemma startswith_length (p s : string) :
  startswith p s = true -> String.length p <= String.length s.
Proof.
  unfold startswith. revert s.
  induction p as [|c p IH]; intros [|d s]; simpl; try discriminate; try lia.
  destruct (Ascii.ascii_dec c d); [|discriminate].
  intros H. apply IH in H. lia.
Qed.

Lemma has_space_append (a b : string) :
  has_space (a ++ b)%string = has_space a || has_space b.
Proof.
  induction a as [|c r IH]; [reflexivity|].
  cbn [append has_space]. now rewrite IH, orb_assoc.
Qed.

Lemma rstrip_no_space (s : string) :
  has_space s = false -> rstrip_by isspace s = s.
Proof.
  induction s as [|c r IH]; [reflexivity|]. cbn [has_space]. intros H.
  apply orb_false_iff in H. destruct H as [H1 H2].
  now rewrite rstrip_cons, H1, (IH H2).
Qed.

Lemma strip_no_space (s : string) : has_space s = false -> strip s = s.
Proof.
  intros H. unfold strip. rewrite lstrip_fixed.
  - now apply rstrip_no_space.
  - destruct s as [|c r]; [exact I|]. cbn [has_space] in H.
    apply orb_false_iff in H. tauto.
Qed.

Lemma split_at (sep : ascii) (a r : string) :
  mem_char sep a = false ->
  split sep (a ++ String sep r)%string = a :: split sep r.
Proof.
  induction a as [|c a IH]; intros H.
  - cbn [append split]. now rewrite Ascii.eqb_refl.
  - destruct (absent_cons _ _ _ H) as [H1 H2].
    cbn [append split]. now rewrite H1, (IH H2).
Qed.

Lemma split_concat (sep : ascii) (x : string) (xs : list string) :
  Forall (fun t => mem_char sep t = false) (x :: xs) ->
  split sep (String.concat (String sep "") (x :: xs)) = x :: xs.
Proof.
  revert x. induction xs as [|y ys IH]; intros x H.
  - inversion H; subst. now apply split_absent.
  - inversion H; subst.
    change (String.concat (String sep "") (x :: y :: ys))
      with (x ++ String sep (String.concat (String sep "") (y :: ys)))%string.
    rewrite split_at by assumption. now rewrite IH.
Qed.

Lemma concat_absent (c sep : ascii) (xs : list string) :
  Ascii.eqb c sep = false ->
  Forall (fun t => mem_char c t = false) xs ->
  mem_char c (String.concat (String sep "") xs) = false.
Proof.
  intros Hs H. induction H as [|x xs Hx Hxs IH]; [reflexivity|].
  destruct xs as [|y ys]; [exact Hx|].
  change (String.concat (String sep "") (x :: y :: ys))
    with (x ++ String sep (String.concat (String sep "") (y :: ys)))%string.
  rewrite mem_char_append, Hx. cbn [mem_char orb]. now rewrite Hs, IH.
Qed.

(** What a carried pair is made of. *)
Lemma carried_pair_facts (kv : string * string) :
  carried_pair kv = true ->
  fst kv <> ""
  /\ (query_safe (fst kv) = true /\ has_space (fst kv) = false)
  /\ (query_safe (snd kv) = true /\ has_space (snd kv) = false)
  /\ mem_char "=" (fst kv) = false
  /\ mem_char "," (fst kv) = false /\ mem_char "," (snd kv) = false.
Proof.
  unfold carried_pair, plain, contains. intros H.
  apply andb_true_iff in H. destruct H as [H H6].
  apply andb_true_iff in H. destruct H as [H H5].
  apply andb_true_iff in H. destruct H as [H H4].
  apply andb_true_iff in H. destruct H as [H H3].
  apply andb_true_iff in H. destruct H as [H1 H2].
  apply andb_true_iff in H2. destruct H2 as [H2 H2'].
  apply andb_true_iff in H3. destruct H3 as [H3 H3'].
  apply negb_true_iff in H1, H2', H3', H4, H5, H6.
  repeat split; auto. intros E. rewrite E in H1. discriminate.
Qed.

Lemma add_pair_carried (out : PyDict.dict string) (kv : string * string) :
  carried_pair kv = true ->
  add_pair out (pair_text kv)
  = PyDict.set ("cmcd." ++ fst kv) (_clean (snd kv)) out.
Proof.
  intros H. destruct (carried_pair_facts kv H)
    as (Hk & [_ Sk] & [_ Sv] & Ek & _ & _).
  destruct kv as [k v]. cbn [fst snd] in *. unfold add_pair, pair_text.
  cbn [fst snd].
  rewrite strip_no_space
    by (rewrite !has_space_append, Sk, Sv; reflexivity).
  unfold contains. rewrite mem_char_append. cbn [append mem_char].
  rewrite Ascii.eqb_refl, orb_true_r. cbn [orb].
  rewrite (partition_at "=" k v Ek).
  rewrite (strip_no_space k Sk), (strip_no_space v Sv).
  destruct k; [congruence | reflexivity].
Qed.

Lemma fold_add_pair_carried (pairs : list (string * string))
  (out : PyDict.dict string) :
  Forall (fun kv => carried_pair kv = true) pairs ->
  fold_left add_pair (map pair_text pairs) out
  = fold_left
      (fun out kv => PyDict.set ("cmcd." ++ fst kv) (_clean (snd kv)) out)
      pairs out.
Proof.
  intros H. revert out. induction H as [|kv pairs Hkv _ IH]; intros out;
    [reflexivity|].
  cbn [map fold_left]. now rewrite (add_pair_carried out kv Hkv), IH.
Qed.

Lemma pair_text_mem (c : ascii) (kv : string * string) :
  mem_char c (pair_text kv)
  = mem_char c (fst kv) || (Ascii.eqb c "=" || mem_char c (snd kv)).
Proof. unfold pair_text. now rewrite mem_char_append. Qed.

Lemma carried_texts_absent (c : ascii) (pairs : list (string * string)) :
  Forall (fun kv => carried_pair kv = true) pairs ->
  Ascii.eqb c "=" = false ->
  (forall kv, carried_pair kv = true ->
              mem_char c (fst kv) = false /\ mem_char c (snd kv) = false) ->
  Forall (fun t => mem_char c t = false) (map pair_text pairs).
Proof.
  intros H Hc Hkv. induction H as [|kv pairs Hk _ IH]; constructor; auto.
  rewrite pair_text_mem, Hc. destruct (Hkv kv Hk) as [-> ->]. reflexivity.
Qed.

Section Combined_form.

Variable pct_decode : string -> string.

(** X19.  The combined form read back: under a parameter name that is [cmcd]
    in any mix of cases, the comma-separated pairs [k=v], for keys and values
    that hold no whitespace, [&], [+], [%] or comma (and no [=] in a key),
    yield the assignments [cmcd.k := v] cleaned, made in order, so that of
    two pairs with one key the later stands. *)
Theorem X19_combined_form_reads_back
  (name : string) (pairs : list (string * string)) :
  lower name = "cmcd" ->
  Forall (fun kv => carried_pair kv = true) pairs ->
  parse_cmcd_from_query_string pct_decode
    (name ++ "=" ++ String.concat "," (map pair_text pairs))%string
  = assign_pairs pairs.
Proof.
  intros Hl Hp.
  set (value := String.concat "," (map pair_text pairs)).
  assert (Ln : String.length name = 4) by (now rewrite <- lower_length, Hl).
  assert (A : forall c, lower_char c = c -> mem_char c "cmcd" = false ->
                        mem_char c name = false).
  { intros c H1 H2. exact (lower_absent c name "cmcd" Hl H1 H2). }
  assert (Sn : query_safe name = true).
  { unfold query_safe, contains.
    now rewrite (A "&"%char), (A "+"%char), (A "%"%char). }
  assert (En : mem_char "=" name = false) by now apply A.
  assert (V : forall c, Ascii.eqb c "," = false -> Ascii.eqb c "=" = false ->
                (forall kv, carried_pair kv = true ->
                   mem_char c (fst kv) = false /\ mem_char c (snd kv) = false) ->
                mem_char c value = false).
  { intros c H1 H2 H3. apply concat_absent; [exact H1|].
    now apply carried_texts_absent. }
  assert (Q : forall kv, carried_pair kv = true ->
                query_safe (fst kv) = true /\ query_safe (snd kv) = true).
  { intros kv H. destruct (carried_pair_facts kv H) as (_ & [? _] & [? _] & _).
    auto. }
  assert (Sv : query_safe value = true).
  { unfold query_safe, contains.
    rewrite (V "&"%char), (V "+"%char), (V "%"%char); try reflexivity;
      intros kv H; destruct (Q kv H) as [Q1 Q2];
      destruct (query_safe_absent _ Q1) as (? & ? & ?);
      destruct (query_safe_absent _ Q2) as (? & ? & ?); auto. }
  destruct name as [|a r] eqn:E; [discriminate|]. rewrite <- E in *.
  assert (Wa : isspace a = false).
  { apply lower_c_not_space. rewrite E in Hl. cbn [lower] in Hl.
    now inversion Hl. }
  unfold parse_cmcd_from_query_string.
  assert (B : is_empty (name ++ "=" ++ value)%string
              || is_empty (strip (name ++ "=" ++ value)%string) = false).
  { rewrite E. unfold strip. cbn [append lstrip_by]. rewrite Wa.
    rewrite rstrip_cons, Wa. reflexivity. }
  rewrite B.
  change (name ++ "=" ++ value)%string with (name ++ String "=" value)%string.
  rewrite (parse_qs_single pct_decode name value); auto;
    [|rewrite E; discriminate].
  unfold find_cmcd_param. cbn [PyDict.keys map find fst].
  rewrite Hl. change (String.eqb "cmcd" "cmcd") with true. cbv iota.
  cbn [PyDict.get]. rewrite String.eqb_refl.
  cbn [fold_left]. unfold add_prefixed.
  assert (P : startswith "cmcd." name = false).
  { destruct (startswith "cmcd." name) eqn:S; [|reflexivity].
    apply startswith_length in S. simpl in S. lia. }
  rewrite P. unfold assign_pairs.
  destruct pairs as [|kv pairs']; [reflexivity|].
  unfold value. cbn [fold_left]. cbn [map]. rewrite split_concat.
  - now apply (fold_add_pair_carried (kv :: pairs')).
  - apply (carried_texts_absent "," (kv :: pairs')); [exact Hp | reflexivity|].
    intros kv' H. destruct (carried_pair_facts kv' H) as (_ & _ & _ & _ & ? & ?).
    auto.
Qed.

End Combined_form.

Lemma X19_witness :
  parse_cmcd_from_query_string no_decoding "CmCd=br=3200,ot=v,br=800"
  = [("cmcd.br", "800"); ("cmcd.ot", "v")].
Proof.
  apply (X19_combined_form_reads_back no_decoding "CmCd"
           [("br", "3200"); ("ot", "v"); ("br", "800")]);
    [reflexivity | repeat constructor].
Defined.

(** X20.  The metrics of a path are those of its query: the text after the
    first question mark is handed to the extractor, and a path without a
    question mark has no metrics. *)
Theorem X20_path_metrics_are_those_of_the_query
  (pct_decode : string -> string) (a qs : string) :
  contains "?" a = false ->
  parse_cmcd_from_path pct_decode (a ++ "?" ++ qs)%string
  = parse_cmcd_from_query_string pct_decode qs
  /\ parse_cmcd_from_path pct_decode a = [].
Proof.
  intros H. unfold parse_cmcd_from_path. split.
  - replace (is_empty (a ++ "?" ++ qs)%string) with false
      by (destruct a; reflexivity).
    unfold contains in *. rewrite mem_char_append. cbn [append mem_char].
    rewrite Ascii.eqb_refl, orb_true_r. cbn [orb].
    now rewrite (partition_at "?" a qs H).
  - rewrite H. now destruct (is_empty a).
Qed.

Lemma X20_witness :
  parse_cmcd_from_path no_decoding "/vod/seg.m4s?a=1?&cmcd.ot=v"
  = [("cmcd.ot", "v")]
  /\ parse_cmcd_from_path no_decoding "/vod/seg.m4s" = [].
Proof.
  apply (X20_path_metrics_are_those_of_the_query no_decoding "/vod/seg.m4s"
           "a=1?&cmcd.ot=v").
  reflexivity.
Defined.

(** ** [collector._normalize_prefix] *)



(** ** [otel_exporter.emit_parsed_log] *)

Lemma map_py_str (d : PyDict.dict string) :
  map (fun kv : string * string => (fst kv, py_str (snd kv))) d = d.
Proof.
  induction d as [|[k v] d IH]; [reflexivity|]. cbn [map fst snd].
  now rewrite IH.
Qed.

Lemma s3_key_is_no_column : ~ In "s3_key" FIELD_NAMES.
Proof.
  intros H.
  assert (E : existsb (String.eqb "s3_key") FIELD_NAMES = true).
  { apply existsb_exists. exists "s3_key". split; [exact H | reflexivity]. }
  vm_compute in E. discriminate.
Qed.

(** X22.  Exporting a decoded record: the body is the record's [raw] text,
    the severity is INFO (9), every decoded attribute is passed on unchanged,
    and the source key, when given and non-empty, is added under
    [cdn.s3_key], a key that no decoded record has, so that nothing decoded
    is overwritten. *)
Theorem X22_export_keeps_the_decoded_attributes
  (pct_decode : string -> string) (line : string) (r : ParsedCDNLog)
  (s3_key : option string) :
  parse_gcore_log_line pct_decode line = Some r ->
  body (emit_parsed_log r s3_key) = strip line
  /\ severity_number (emit_parsed_log r s3_key) = 9
  /\ PyDict.get "cdn.s3_key" (attributes r) = None
  /\ PyDict.get "cdn.s3_key" (log_attributes (emit_parsed_log r s3_key))
     = match s3_key with
       | Some k => if is_empty k then None else Some k
       | None => None
       end
  /\ forall key, key <> "cdn.s3_key" ->
       PyDict.get key (log_attributes (emit_parsed_log r s3_key))
       = PyDict.get key (attributes r).
Proof.
  intros H.
  assert (N : PyDict.get "cdn.s3_key" (attributes r) = None).
  { pose proof (record_column pct_decode line r "s3_key" H) as Q.
    cbn [append] in Q. rewrite Q.
    change "cdn.s3_key" with ("cdn." ++ "s3_key")%string.
    unfold column_attrs. rewrite column_fold_unset; [reflexivity|].
    intros i Hi. exfalso. apply s3_key_is_no_column.
    apply enumerate_in_inv in Hi. destruct Hi as [_ Hi].
    now apply nth_error_In in Hi. }
  destruct (parse_some pct_decode line r H) as (_ & _ & R & _).
  unfold emit_parsed_log. cbn [body severity_number log_attributes].
  rewrite map_py_str.
  split; [exact R|]. split; [reflexivity|]. split; [exact N|]. split.
  - destruct s3_key as [k|]; [|exact N].
    destruct (is_empty k); [exact N | apply get_set_eq].
  - intros key Hk. destruct s3_key as [k|]; [|reflexivity].
    destruct (is_empty k); [reflexivity | now apply get_set_neq].
Qed.

Lemma X22_witness :
  exists r, parse_gcore_log_line no_decoding padded_line = Some r
            /\ body (emit_parsed_log r (Some "logs/a_access.log.gz"))
               = sample_line
            /\ PyDict.get "cdn.s3_key"
                 (log_attributes (emit_parsed_log r (Some "logs/a_access.log.gz")))
               = Some "logs/a_access.log.gz".
Proof.
  destruct (parse_gcore_log_line no_decoding padded_line) as [r|] eqn:E;
    [|vm_compute in E; discriminate].
  exists r. split; [reflexivity|].
  destruct (X22_export_keeps_the_decoded_attributes no_decoding padded_line r
              (Some "logs/a_access.log.gz") E) as (B & _ & _ & K & _).
  split; [exact B | exact K].
Defined.

(** ** [collector._iter_keys] *)

(** Equality of two loop states: the lists, then the counts. *)
Ltac state_eq :=
  apply f_equal2; [apply f_equal2; [try reflexivity | try lia] | reflexivity].

Section Iter_keys_props.

Variable paginate : string -> list (option (list S3Object)).
Variable now : datetime.
Variable since : option datetime.

Lemma iter_objects_unlimited (max_objects : option Z)
  (objs out : list (string * datetime * Z)) (count : Z) :
  truthy max_objects = false ->
  iter_objects max_objects objs count out
  = (out ++ objs, (count + Z.of_nat (List.length objs))%Z, false).
Proof.
  intros T.
  assert (R : forall c, reached max_objects c = false).
  { intros c. destruct max_objects as [z|]; [|reflexivity].
    unfold truthy in T. unfold reached. now rewrite T. }
  revert count out. induction objs as [|o rest IH]; intros count out.
  - cbn [iter_objects List.length]. now rewrite app_nil_r, Z.add_0_r.
  - cbn [iter_objects]. rewrite R, IH, <- app_assoc. cbn [app List.length].
    state_eq.
Qed.

Lemma iter_objects_limited (m : Z)
  (objs out : list (string * datetime * Z)) (count : Z) :
  m <> 0%Z -> (0 <= count)%Z ->
  Z.to_nat count < Z.to_nat (Z.max 1 m) ->
  let room := Z.to_nat (Z.max 1 m) - Z.to_nat count in
  iter_objects (Some m) objs count out
  = if (room <=? List.length objs)%nat
    then (out ++ firstn room objs, Z.of_nat (Z.to_nat (Z.max 1 m)), true)
    else (out ++ objs, (count + Z.of_nat (List.length objs))%Z, false).
Proof.
  intros Hm. revert count out.
  induction objs as [|o rest IH]; intros count out Hc Hlt room.
  - cbn [iter_objects List.length].
    replace (room <=? 0)%nat with false
      by (symmetry; apply Nat.leb_gt; unfold room; lia).
    now rewrite app_nil_r, Z.add_0_r.
  - cbn [iter_objects reached].
    replace (negb (m =? 0)%Z) with true
      by (symmetry; apply negb_true_iff, Z.eqb_neq; exact Hm).
    cbn [andb List.length].
    destruct (m <=? count + 1)%Z eqn:E.
    + apply Z.leb_le in E.
      assert (R1 : room = 1) by (unfold room; lia).
      rewrite R1. cbn [Nat.leb firstn]. state_eq.
    + apply Z.leb_gt in E.
      specialize (IH (count + 1)%Z (out ++ [o])).
      cbv zeta in IH. rewrite IH by lia.
      replace (Z.to_nat (Z.max 1 m) - Z.to_nat (count + 1)) with (room - 1)
        by (unfold room; lia).
      assert (Rp : 0 < room) by (unfold room; lia).
      clearbody room. destruct room as [|k]; [lia|].
      replace (S k - 1) with k by lia. cbn [Nat.leb firstn].
      destruct (k <=? List.length rest)%nat;
        rewrite <- app_assoc; cbn [app]; state_eq.
Qed.

Lemma iter_prefixes_unlimited (max_objects : option Z) (prefixes : list string)
  (count : Z) (out : list (string * datetime * Z)) :
  truthy max_objects = false ->
  iter_prefixes paginate since max_objects prefixes count out
  = out ++ flat_map
             (fun p => list_log_objects (paginate p) since "_access.log.gz")
             prefixes.
Proof.
  intros T. revert count out.
  induction prefixes as [|p rest IH]; intros count out.
  - cbn. now rewrite app_nil_r.
  - cbn [iter_prefixes flat_map].
    rewrite (iter_objects_unlimited _ _ _ _ T), IH. now rewrite app_assoc.
Qed.

Lemma iter_prefixes_limited (m : Z) (prefixes : list string)
  (count : Z) (out : list (string * datetime * Z)) :
  m <> 0%Z -> (0 <= count)%Z ->
  Z.to_nat count < Z.to_nat (Z.max 1 m) ->
  iter_prefixes paginate since (Some m) prefixes count out
  = out ++ firstn (Z.to_nat (Z.max 1 m) - Z.to_nat count)
             (flat_map
                (fun p => list_log_objects (paginate p) since "_access.log.gz")
                prefixes).
Proof.
  intros Hm. revert count out.
  induction prefixes as [|p rest IH]; intros count out Hc Hlt.
  - cbn [iter_prefixes flat_map]. now rewrite firstn_nil, app_nil_r.
  - cbn [iter_prefixes flat_map].
    set (objs := list_log_objects (paginate p) since "_access.log.gz").
    pose proof (iter_objects_limited m objs out count Hm Hc Hlt) as Q.
    cbv zeta in Q. rewrite Q. clear Q.
    set (room := Z.to_nat (Z.max 1 m) - Z.to_nat count).
    rewrite firstn_app.
    destruct (room <=? List.length objs)%nat eqn:E.
    + apply Nat.leb_le in E.
      replace (room - List.length objs) with 0 by lia.
      cbn [firstn]. now rewrite app_nil_r.
    + apply Nat.leb_gt in E.
      rewrite IH by (unfold room in E; lia).
      rewrite (firstn_all2 objs) by (apply Nat.lt_le_incl; exact E).
      rewrite <- app_assoc.
      f_equal. f_equal. f_equal. unfold room in *. lia.
Qed.

Lemma iter_prefixes_spec (prefixes : list string) (max_objects : option Z) :
  iter_prefixes paginate since max_objects prefixes 0 []
  = limited max_objects
      (flat_map
         (fun p => list_log_objects (paginate p) since "_access.log.gz")
         prefixes).
Proof.
  unfold limited. destruct max_objects as [z|].
  - destruct (z =? 0)%Z eqn:Z0.
    + apply iter_prefixes_unlimited. unfold truthy. now rewrite Z0.
    + apply Z.eqb_neq in Z0.
      rewrite iter_prefixes_limited by lia.
      cbn [app]. f_equal. lia.
  - now apply iter_prefixes_unlimited.
Qed.

(** X23.  Without a single key, [_iter_keys] yields the objects listed under
    the prefixes, in order, cut off by [max_objects]: all of them when the
    limit is absent or 0, the first [max_objects] of them when it is
    positive, and the first one alone when it is negative.  With a non-empty
    single key it yields that key alone, with size 0. *)
Theorem X23_iter_keys_yields_up_to_the_limit
  (single_key : option string) (prefixes : list string)
  (max_objects : option Z) :
  _iter_keys paginate now since single_key prefixes max_objects
  = match single_key with
    | Some (String c k) => [(String c k, now, 0%Z)]
    | _ =>
        limited max_objects
          (flat_map
             (fun p => list_log_objects (paginate p) since "_access.log.gz")
             prefixes)
    end.
Proof.
  unfold _iter_keys.
  destruct single_key as [[|c k]|]; cbn [is_empty];
    (reflexivity || apply iter_prefixes_spec).
Qed.

End Iter_keys_props.

(** ** [s3_source.list_log_objects] *)

Lemma in_limited {A : Type} (max_objects : option Z) (l : list A) (x : A) :
  In x (limited max_objects l) -> In x l.
Proof.
  unfold limited. destruct max_objects as [z|]; [|auto].
  destruct (z =? 0)%Z; [auto|]. revert l.
  induction (Z.to_nat (Z.max 1 z)) as [|n IH]; intros [|y l] H;
    cbn [firstn] in H; try destruct H.
  - now left.
  - right. auto.
Qed.

Lemma list_log_objects_in
  (pages : list (option (list S3Object))) (since : option datetime)
  (suffix key : string) (last_modified : datetime) (size : Z) :
  In (key, last_modified, size) (list_log_objects pages since suffix)
  <-> exists obj,
        In obj (flat_map contents pages)
        /\ Key obj = key /\ LastModified obj = last_modified
        /\ size = match Size obj with
                  | Some n => n
                  | None => 0%Z
                  end
        /\ endswith suffix key = true
        /\ match since with
           | Some s => (instant s <= instant last_modified)%Z
           | None => True
           end.
Proof.
  unfold list_log_objects. rewrite in_flat_map. split.
  - intros (page & Hp & H). apply in_flat_map in H.
    destruct H as (obj & Ho & H). exists obj.
    split; [apply in_flat_map; eauto|].
    unfold list_log_object in H.
    destruct (endswith suffix (Key obj)) eqn:E; [|destruct H].
    cbn [negb] in H.
    destruct since as [s|].
    + destruct (instant (LastModified obj) <? instant s)%Z eqn:T;
        [destruct H|].
      destruct H as [H|[]]. inversion H; subst.
      apply Z.ltb_ge in T. auto.
    + destruct H as [H|[]]. inversion H; subst. auto.
  - intros (obj & Ho & Hk & Hl & Hs & He & Ht).
    apply in_flat_map in Ho. destruct Ho as (page & Hp & Ho).
    exists page. split; [exact Hp|]. apply in_flat_map. exists obj.
    split; [exact Ho|]. unfold list_log_object. subst key last_modified size.
    rewrite He. cbn [negb].
    destruct since as [s|].
    + replace (instant (LastModified obj) <? instant s)%Z with false
        by (symmetry; apply Z.ltb_ge; exact Ht).
      now left.
    + now left.
Qed.


(** X25.  Every object [_iter_keys] yields from the prefixes has a key that
    ends with [_access.log.gz] and, when [since] is given, was last modified
    not before it; and a positive limit bounds their number. *)
Theorem X25_iter_keys_yields_recent_access_logs
  (paginate : string -> list (option (list S3Object))) (now : datetime)
  (since : option datetime) (prefixes : list string) (max_objects : option Z) :
  (forall key last_modified size,
     In (key, last_modified, size)
        (_iter_keys paginate now since None prefixes max_objects) ->
     endswith "_access.log.gz" key = true
     /\ match since with
        | Some s => (instant s <= instant last_modified)%Z
        | None => True
        end)
  /\ forall m, max_objects = Some m -> (0 < m)%Z ->
       (Z.of_nat (List.length
                    (_iter_keys paginate now since None prefixes max_objects))
        <= m)%Z.
Proof.
  unfold _iter_keys. rewrite iter_prefixes_spec. split.
  - intros key lm size H. apply in_limited in H.
    apply in_flat_map in H. destruct H as (p & _ & H).
    apply list_log_objects_in in H.
    destruct H as (obj & _ & _ & _ & _ & He & Ht). auto.
  - intros m -> Hm. unfold limited.
    replace (m =? 0)%Z with false by (symmetry; apply Z.eqb_neq; lia).
    rewrite length_firstn. lia.
Qed.

(** ** [collector.run] *)

Section Run_props.

Variable pct_decode : string -> string.
Variable paginate : string -> list (option (list S3Object)).
Variable stream_log_lines : string -> list string.
Variable now : datetime.

Lemma run_line_step (key_item line : string) (emitted : Z)
  (logs : list LogRecord) :
  match parse_gcore_log_line pct_decode line with
  | Some parsed =>
      ((emitted + 1)%Z, logs ++ [emit_parsed_log parsed (Some key_item)])
  | None => (emitted, logs)
  end
  = ((emitted
      + Z.of_nat (List.length (line_logs pct_decode key_item line)))%Z,
     logs ++ line_logs pct_decode key_item line).
Proof.
  unfold line_logs. destruct (parse_gcore_log_line pct_decode line).
  - reflexivity.
  - cbn [List.length]. now rewrite app_nil_r, Z.add_0_r.
Qed.

Lemma run_lines_unlimited (max_lines : option Z) (key_item : string)
  (lines : list string) (line_count emitted : Z) (logs : list LogRecord) :
  truthy max_lines = false ->
  run_lines pct_decode max_lines key_item lines line_count emitted logs
  = ((emitted
      + Z.of_nat
          (List.length (flat_map (line_logs pct_decode key_item) lines)))%Z,
     logs ++ flat_map (line_logs pct_decode key_item) lines).
Proof.
  intros T.
  assert (R : forall c, reached max_lines c = false).
  { intros c. destruct max_lines as [z|]; [|reflexivity].
    unfold truthy in T. unfold reached. now rewrite T. }
  revert line_count emitted logs.
  induction lines as [|line rest IH]; intros line_count emitted logs.
  - cbn. now rewrite app_nil_r, Z.add_0_r.
  - cbn [run_lines flat_map]. rewrite R, run_line_step, IH.
    rewrite length_app, <- app_assoc. apply f_equal2; [lia | reflexivity].
Qed.

Lemma run_lines_limited (m : Z) (key_item : string)
  (lines : list string) (line_count emitted : Z) (logs : list LogRecord) :
  m <> 0%Z -> (0 <= line_count)%Z ->
  let read := firstn (Z.to_nat (m - line_count)) lines in
  run_lines pct_decode (Some m) key_item lines line_count emitted logs
  = ((emitted
      + Z.of_nat
          (List.length (flat_map (line_logs pct_decode key_item) read)))%Z,
     logs ++ flat_map (line_logs pct_decode key_item) read).
Proof.
  intros Hm. revert line_count emitted logs.
  induction lines as [|line rest IH]; intros line_count emitted logs Hc read.
  - unfold read. rewrite firstn_nil. cbn.
    now rewrite app_nil_r, Z.add_0_r.
  - cbn [run_lines reached].
    replace (negb (m =? 0)%Z) with true
      by (symmetry; apply negb_true_iff, Z.eqb_neq; exact Hm).
    cbn [andb]. unfold read.
    destruct (m <=? line_count)%Z eqn:E.
    + apply Z.leb_le in E.
      replace (Z.to_nat (m - line_count)) with 0 by lia.
      cbn. now rewrite app_nil_r, Z.add_0_r.
    + apply Z.leb_gt in E.
      replace (Z.to_nat (m - line_count))
        with (S (Z.to_nat (m - (line_count + 1)))) by lia.
      cbn [firstn flat_map]. rewrite run_line_step.
      specialize (IH (line_count + 1)%Z). cbv zeta in IH.
      rewrite IH by lia.
      rewrite length_app, <- app_assoc. apply f_equal2; [lia | reflexivity].
Qed.

(** The records of one object. *)
Lemma run_lines_spec (max_lines : option Z) (key_item : string)
  (lines : list string) (emitted : Z) (logs : list LogRecord) :
  let new := flat_map (line_logs pct_decode key_item)
                      (limited_lines max_lines lines) in
  run_lines pct_decode max_lines key_item lines 0 emitted logs
  = ((emitted + Z.of_nat (List.length new))%Z, logs ++ new).
Proof.
  unfold limited_lines. destruct max_lines as [z|].
  - destruct (z =? 0)%Z eqn:Z0.
    + apply run_lines_unlimited. unfold truthy. now rewrite Z0.
    + apply Z.eqb_neq in Z0.
      pose proof (run_lines_limited z key_item lines 0 emitted logs Z0
                    (Z.le_refl 0)) as Q.
      cbv zeta in Q. now rewrite Z.sub_0_r in Q.
  - now apply run_lines_unlimited.
Qed.

Lemma run_objects_unlimited (max_objects max_lines : option Z)
  (keys : list (string * datetime * Z)) (processed emitted : Z)
  (logs : list LogRecord) :
  truthy max_objects = false ->
  let new := flat_map (object_logs pct_decode stream_log_lines max_lines) keys in
  run_objects pct_decode stream_log_lines max_objects max_lines keys
              processed emitted logs
  = ((emitted + Z.of_nat (List.length new))%Z, logs ++ new).
Proof.
  intros T.
  assert (R : forall c, reached max_objects c = false).
  { intros c. destruct max_objects as [z|]; [|reflexivity].
    unfold truthy in T. unfold reached. now rewrite T. }
  revert processed emitted logs.
  induction keys as [|[[key_item lm] size] rest IH];
    intros processed emitted logs.
  - cbn. now rewrite app_nil_r, Z.add_0_r.
  - cbn [run_objects flat_map]. rewrite run_lines_spec. cbv zeta.
    rewrite R. cbv zeta in IH. rewrite IH.
    change (flat_map (line_logs pct_decode key_item)
              (limited_lines max_lines (stream_log_lines key_item)))
      with (object_logs pct_decode stream_log_lines max_lines
              (key_item, lm, size)).
    rewrite length_app, <- app_assoc.
    apply f_equal2; [lia | reflexivity].
Qed.

Lemma run_objects_limited (m : Z) (max_lines : option Z)
  (keys : list (string * datetime * Z)) (processed emitted : Z)
  (logs : list LogRecord) :
  m <> 0%Z -> (0 <= processed)%Z ->
  Z.to_nat processed < Z.to_nat (Z.max 1 m) ->
  let new :=
    flat_map (object_logs pct_decode stream_log_lines max_lines)
             (firstn (Z.to_nat (Z.max 1 m) - Z.to_nat processed) keys) in
  run_objects pct_decode stream_log_lines (Some m) max_lines keys
              processed emitted logs
  = ((emitted + Z.of_nat (List.length new))%Z, logs ++ new).
Proof.
  intros Hm. revert processed emitted logs.
  induction keys as [|[[key_item lm] size] rest IH];
    intros processed emitted logs Hc Hlt.
  - cbv zeta. rewrite firstn_nil. cbn. now rewrite app_nil_r, Z.add_0_r.
  - cbv zeta. cbn [run_objects reached]. rewrite run_lines_spec. cbv zeta.
    replace (negb (m =? 0)%Z) with true
      by (symmetry; apply negb_true_iff, Z.eqb_neq; exact Hm).
    cbn [andb].
    remember (Z.to_nat (Z.max 1 m) - Z.to_nat processed) as room eqn:Hr.
    destruct room as [|k]; [lia|]. cbn [firstn flat_map].
    change (flat_map (line_logs pct_decode key_item)
              (limited_lines max_lines (stream_log_lines key_item)))
      with (object_logs pct_decode stream_log_lines max_lines
              (key_item, lm, size)).
    set (ol := object_logs pct_decode stream_log_lines max_lines
                 (key_item, lm, size)).
    destruct (m <=? processed + 1)%Z eqn:E.
    + apply Z.leb_le in E. assert (k = 0) by lia. subst k.
      cbn [firstn flat_map]. now rewrite !app_nil_r.
    + apply Z.leb_gt in E.
      specialize (IH (processed + 1)%Z). cbv zeta in IH. rewrite IH by lia.
      replace (Z.to_nat (Z.max 1 m) - Z.to_nat (processed + 1)) with k by lia.
      rewrite length_app, <- app_assoc.
      apply f_equal2; [lia | reflexivity].
Qed.

Lemma run_objects_spec (max_objects max_lines : option Z)
  (keys : list (string * datetime * Z)) :
  let new := flat_map (object_logs pct_decode stream_log_lines max_lines)
                      (limited max_objects keys) in
  run_objects pct_decode stream_log_lines max_objects max_lines keys 0 0 []
  = (Z.of_nat (List.length new), new).
Proof.
  unfold limited. destruct max_objects as [z|].
  - destruct (z =? 0)%Z eqn:Z0.
    + apply run_objects_unlimited. unfold truthy. now rewrite Z0.
    + apply Z.eqb_neq in Z0.
      pose proof (run_objects_limited z max_lines keys 0 0 [] Z0
                    (Z.le_refl 0)) as Q.
      cbv zeta in Q. rewrite Nat.sub_0_r in Q. apply Q. simpl. lia.
  - now apply run_objects_unlimited.
Qed.

(** X26.  What [run] returns and emits.  In a dry run or when inspecting it
    returns 0 and hands nothing to the logger.  Otherwise it goes through the
    objects [_iter_keys] yields, up to [max_objects] of them, and in each
    through the lines up to [max_lines_per_file] (a limit that is absent or 0
    lets all through; a negative [max_objects] lets one object through, a
    negative [max_lines_per_file] no line); it emits one record for every
    line read that the decoder accepts, in order, and returns their
    number. *)
Theorem X26_run_emits_one_record_per_decoded_line
  (prefixes : list string) (since : option datetime) (dry_run : bool)
  (max_objects max_lines_per_file : option Z) (inspect_cmcd : bool)
  (key : option string) :
  let keys_iter :=
    _iter_keys paginate now since key (map _normalize_prefix prefixes)
      (match key with
       | Some (String _ _) => Some 1%Z
       | _ => max_objects
       end) in
  let logs :=
    flat_map (object_logs pct_decode stream_log_lines max_lines_per_file)
             (limited max_objects keys_iter) in
  run pct_decode paginate stream_log_lines now prefixes since dry_run
      max_objects max_lines_per_file inspect_cmcd key
  = if dry_run || inspect_cmcd then (0%Z, [])
    else (Z.of_nat (List.length logs), logs).
Proof.
  cbv zeta. unfold run.
  destruct dry_run; [reflexivity|]. destruct inspect_cmcd; [reflexivity|].
  cbn [orb]. rewrite run_objects_spec. cbv zeta.
  destruct key as [[|c k]|]; reflexivity.
Qed.

End Run_props.

Lemma in_limited_lines {A : Type} (max_lines : option Z) (l : list A) (x : A) :
  In x (limited_lines max_lines l) -> In x l.
Proof.
  unfold limited_lines. destruct max_lines as [z|]; [|auto].
  destruct (z =? 0)%Z; [auto|]. revert l.
  induction (Z.to_nat z) as [|n IH]; intros [|y l] H;
    cbn [firstn] in H; try destruct H.
  - now left.
  - right. auto.
Qed.

(** X27.  Every record [run] hands to the logger comes from a line of an
    object that [_iter_keys] yielded: the line tokenizes to at least 10
    fields, the body of the record is the trimmed text of the line, and its
    attribute [cdn.s3_key] is the key of the object. *)
Theorem X27_every_emitted_record_comes_from_a_decoded_line
  (pct_decode : string -> string)
  (paginate : string -> list (option (list S3Object)))
  (stream_log_lines : string -> list string) (now : datetime)
  (prefixes : list string) (since : option datetime) (dry_run : bool)
  (max_objects max_lines_per_file : option Z) (inspect_cmcd : bool)
  (key : option string) (log : LogRecord) :
  In log (snd (run pct_decode paginate stream_log_lines now prefixes since
                   dry_run max_objects max_lines_per_file inspect_cmcd key)) ->
  exists key_item last_modified size line,
    In (key_item, last_modified, size)
       (_iter_keys paginate now since key (map _normalize_prefix prefixes)
          (match key with
           | Some (String _ _) => Some 1%Z
           | _ => max_objects
           end))
    /\ In line (stream_log_lines key_item)
    /\ 10 <= List.length (_parse_quoted_fields line)
    /\ body log = strip line
    /\ PyDict.get "cdn.s3_key" (log_attributes log)
       = if is_empty key_item then None else Some key_item.
Proof.
  unfold run. destruct dry_run; [intros []|].
  destruct inspect_cmcd; [intros []|].
  rewrite run_objects_spec. cbv zeta. cbn [snd]. intros H.
  apply in_flat_map in H. destruct H as ([[key_item lm] size] & Hk & H).
  apply in_limited in Hk. unfold object_logs in H. cbn [fst] in H.
  apply in_flat_map in H. destruct H as (line & Hl & H).
  apply in_limited_lines in Hl. unfold line_logs in H.
  destruct (parse_gcore_log_line pct_decode line) as [r|] eqn:P; [|destruct H].
  destruct H as [H|[]]. subst log.
  exists key_item, lm, size, line.
  split; [destruct key as [[|c k]|]; exact Hk|].
  split; [exact Hl|].
  destruct (parse_some pct_decode line r P) as (_ & L & R & _).
  rewrite field_count_strip in L. split; [exact L|].
  split; [exact R|].
  unfold emit_parsed_log. cbn [log_attributes]. rewrite map_py_str.
  destruct (is_empty key_item) eqn:E.
  - pose proof (record_column pct_decode line r "s3_key" P) as Q.
    cbn [append] in Q. rewrite Q.
    change "cdn.s3_key" with ("cdn." ++ "s3_key")%string.
    unfold column_attrs. rewrite column_fold_unset; [reflexivity|].
    intros i Hi. exfalso. apply s3_key_is_no_column.
    apply enumerate_in_inv in Hi. destruct Hi as [_ Hi].
    now apply nth_error_In in Hi.
  - apply get_set_eq.
Qed.

Lemma X27_witness :
  exists line, In line (sample_stream "logs/a_access.log.gz")
               /\ body (nth 0 (snd sample_run) (mkLogRecord "" 0 "" []))
                  = strip line.
Proof.
  destruct (X27_every_emitted_record_comes_from_a_decoded_line
              no_decoding sample_paginate sample_stream epoch ["logs"] None
              false None None false None
              (nth 0 (snd sample_run) (mkLogRecord "" 0 "" [])))
    as (key_item & lm & size & line & Hk & Hl & _ & Hb & _).
  - vm_compute. left. reflexivity.
  - exists line. split; [|exact Hb].
    vm_compute in Hk. destruct Hk as [Hk|[]]. inversion Hk; subst. exact Hl.
Defined.

(** ** The text fields of a record *)

Lemma strip_or_else (f : string) : strip (or_else (strip f) "") = or_else (strip f) "".
Proof. rewrite or_else_empty_r. apply strip_idem. Qed.

Lemma strip_get (fields : list string) (idx : nat) :
  strip (get fields idx "") = get fields idx "".
Proof.
  unfold get. destruct (nth_error fields idx); [apply strip_or_else | reflexivity].
Qed.

Lemma parse_request_no_space (request : string) :
  has_space (fst (parse_request request)) = false
  /\ has_space (snd (parse_request request)) = false.
Proof.
  unfold parse_request. cbn [split_ws].
  destruct (lstrip_by isspace request) as [|c r] eqn:L; [split; reflexivity|].
  cbn [is_empty].
  pose proof (span_word_no_space (String c r)) as N1.
  destruct (span_word (String c r)) as [w rest]. cbn [fst] in N1.
  pose proof (span_word_no_space (lstrip_by isspace rest)) as N3.
  destruct (lstrip_by isspace rest) as [|d t] eqn:L2; [split; auto|].
  cbn [is_empty]. destruct (span_word (String d t)) as [p rest'].
  cbn [fst snd] in *. auto.
Qed.

(** X28.  In a returned record the raw text, the request, and every scalar
    field filled by position alone carry no leading or trailing whitespace,
    and so do method and path, which hold no whitespace at all. *)
Theorem X28_text_fields_are_trimmed
  (pct_decode : string -> string) (line : string) (r : ParsedCDNLog)
  (field : ParsedCDNLog -> string) :
  parse_gcore_log_line pct_decode line = Some r ->
  In field trimmed_fields ->
  strip (field r) = field r.
Proof.
  intros H Hin.
  pose proof (parse_some_record pct_decode line r H) as R. cbv zeta in R.
  set (fields := _parse_quoted_fields (strip line)) in *.
  set (req := or_else (_find_request_field fields) (get fields 4 "")) in *.
  assert (Q : strip req = req).
  { unfold req. rewrite find_request_field_spec.
    destruct (find (fun f => looks_like_request (strip f)) fields) as [f|].
    - destruct (strip f) eqn:E; [apply strip_get|].
      cbn [or_else is_empty]. rewrite <- E. apply strip_idem.
    - apply strip_get. }
  destruct (parse_request_no_space req) as (M & P).
  assert (A : Forall (fun f : ParsedCDNLog -> string => strip (f r) = f r)
                     trimmed_fields).
  { rewrite R. unfold trimmed_fields.
    repeat (constructor;
            [first [ apply strip_idem | apply strip_get | exact Q
                   | apply strip_no_space; assumption ]|]).
    constructor. }
  rewrite Forall_forall in A. exact (A _ Hin).
Qed.

Lemma X28_witness :
  exists r, parse_gcore_log_line no_decoding padded_line = Some r
            /\ strip (raw r) = raw r /\ strip (path r) = path r.
Proof.
  destruct (parse_gcore_log_line no_decoding padded_line) as [r|] eqn:E;
    [|vm_compute in E; discriminate].
  exists r. split; [reflexivity|]. split.
  - apply (X28_text_fields_are_trimmed no_decoding padded_line r raw E).
    unfold trimmed_fields. cbn [In]. tauto.
  - apply (X28_text_fields_are_trimmed no_decoding padded_line r path E).
    unfold trimmed_fields. cbn [In]. tauto.
Defined.
